(** * URL preview service (packages/backend, UrlPreviewService)

    A shallow embedding of [UrlPreviewService]: the image-URL wrapper [wrap],
    the request handler [handle] and the two fetch helpers [fetchSummary] and
    [fetchSummaryFromProxy].  JavaScript values are modelled with their
    nullish cases written out, the handler's effects (reply, cache, outbound
    calls, log) by a state-and-exception monad over an explicit [World]. *)

From Stdlib Require Import ZArith String Ascii List.
From stdpp Require Import base option strings gmap pretty.

Local Open Scope Z_scope.

(** ** JavaScript values used by the service *)
Module Js.

(** A value of type [T | null | undefined]. *)
Inductive Nullable (A : Type) : Type :=
| Undefined
| Null
| Val (a : A).
Arguments Undefined {A}.
Arguments Null {A}.
Arguments Val {A} a.

(** [v != null]: false on both [null] and [undefined]. *)
Definition notNullish {A} (v : Nullable A) : bool :=
  match v with
  | Val _ => true
  | _ => false
  end.

(** Truthiness of a [string | null | undefined]: the empty string is falsy. *)
Definition truthyStr (s : string) : bool :=
  match s with
  | EmptyString => false
  | String _ _ => true
  end.

Definition truthy (v : Nullable string) : bool :=
  match v with
  | Val s => truthyStr s
  | _ => false
  end.

Definition truthyOpt (v : option string) : bool :=
  match v with
  | Some s => truthyStr s
  | None => false
  end.

(** The text a template literal [`${v}`] produces. *)
Definition template (v : Nullable string) : string :=
  match v with
  | Undefined => "undefined"
  | Null => "null"
  | Val s => s
  end.

(** [s.startsWith(p)] *)
Definition startsWith (s p : string) : bool := String.prefix p s.

(** [s.match(/^https?:\/\//)] seen as a condition: the match object is
    truthy, [null] is falsy. *)
Definition matchHttp (s : string) : bool :=
  String.prefix "http://" s || String.prefix "https://" s.

(** A thrown value: an [Error] object with its class name and message. *)
Record Exn : Type := mkExn { exnName : string; exnMessage : string }.

(** [`${err}`] for an [Error] object. *)
Definition exnToString (e : Exn) : string :=
  exnName e +:+ ": " +:+ exnMessage e.

(** *** [encodeURIComponent]

    Strings are sequences of UTF-8 bytes; every byte outside the unreserved
    set [A-Z a-z 0-9 - _ . ! ~ * ' ( )] is written [%XX] with upper-case
    hexadecimal digits. *)
Definition hexDigit (n : N) : ascii :=
  if (n <? 10)%N then ascii_of_N (48 + n) else ascii_of_N (55 + n).

Definition isUnreserved (c : ascii) : bool :=
  let n := N_of_ascii c in
  ((65 <=? n) && (n <=? 90) || (97 <=? n) && (n <=? 122)
   || (48 <=? n) && (n <=? 57))%N
  || match c with
     | "-" | "_" | "." | "!" | "~" | "*" | "'" | "(" | ")" => true
     | _ => false
     end%char.

Fixpoint encodeURIComponent (s : string) : string :=
  match s with
  | EmptyString => EmptyString
  | String c rest =>
      if isUnreserved c then String c (encodeURIComponent rest)
      else
        let n := N_of_ascii c in
        String "%" (String (hexDigit (n / 16)) (String (hexDigit (n mod 16))
          (encodeURIComponent rest)))
  end.

End Js.
Import Js.

(** ** Query strings ([misc/prelude/url]) *)

(** The values the service puts into a query object. *)
Inductive QueryValue : Type :=
| QvString (s : string)
| QvNumber (n : Z)
| QvBoolean (b : bool)
| QvUndefined.

(** [String(v)] for the values above. *)
Definition queryValueToString (v : QueryValue) : option string :=
  match v with
  | QvString s => Some s
  | QvNumber n => Some (pretty n)
  | QvBoolean true => Some "true"
  | QvBoolean false => Some "false"
  | QvUndefined => None
  end.

Fixpoint joinWith (sep : string) (l : list string) : string :=
  match l with
  | [] => ""
  | [x] => x
  | x :: rest => x +:+ sep +:+ joinWith sep rest
  end.

(** Modelled from the spec: [query] of [misc/prelude/url] is not under src/.
    The spec describes its result as a query string carrying the entries of
    the object as query parameters (for instance [preview=1] and the original
    URL); it is rendered here as the [key=value] pairs of the defined entries,
    in the object's order, joined by [&], each value percent-encoded. *)
Definition query (obj : list (string * QueryValue)) : string :=
  joinWith "&"
    (omap (fun '(k, v) =>
             match queryValueToString v with
             | Some s => Some (k +:+ "=" +:+ encodeURIComponent s)
             | None => None
             end) obj).

(** Reading a percent-encoded text back, byte by byte; the inverse used to
    state that a query string carries a value. *)
Definition hexValue (c : ascii) : option N :=
  let n := N_of_ascii c in
  if ((48 <=? n) && (n <=? 57))%N then Some (n - 48)%N
  else if ((65 <=? n) && (n <=? 70))%N then Some (n - 55)%N
  else if ((97 <=? n) && (n <=? 102))%N then Some (n - 87)%N
  else None.

Fixpoint percentDecode (s : string) : option string :=
  match s with
  | EmptyString => Some EmptyString
  | String "%" (String h (String l rest)) =>
      match hexValue h, hexValue l with
      | Some a, Some b =>
          option_map (String (ascii_of_N (16 * a + b))) (percentDecode rest)
      | _, _ => None
      end
  | String "%" _ => None
  | String c rest => option_map (String c) (percentDecode rest)
  end.

(** ** Configuration and collaborators *)

(** The fields of [Config] the service reads. *)
Record Config : Type := {
  imgproxyURL : option string;
  imgproxyKey : option string;
  imgproxySalt : option string;
  mediaProxy : string;
  proxy : option string
}.

(** The fields of [MiMeta] the service reads. *)
Record MiMeta : Type := {
  urlPreviewEnabled : bool;
  urlPreviewSummaryProxyUrl : option string;
  urlPreviewUserAgent : option string;
  urlPreviewTimeout : Z;
  urlPreviewMaximumContentLength : Z;
  urlPreviewRequireContentLength : bool
}.

(** The argument of [generateImageUrl] (@imgproxy/imgproxy-node). *)
Record ImgproxyOptions : Type := {
  format : string;
  height : Z;
  width : Z;
  enlarge : bool;
  gravity_type : string;
  auto_rotate : bool
}.

Record ImgproxyRequest : Type := {
  img_endpoint : option string;
  img_key : option string;
  img_salt : option string;
  img_url : string;
  img_options : ImgproxyOptions
}.

(** The embedded player of a summary. *)
Record Player : Type := {
  player_url : Nullable string
}.

(** [SummalyResult]: the fields named by the service and the spec. *)
Record SummalyResult : Type := {
  title : Nullable string;
  description : Nullable string;
  summary_url : string;
  icon : Nullable string;
  thumbnail : Nullable string;
  player : Nullable Player
}.

Definition set_icon (s : SummalyResult) (v : Nullable string) : SummalyResult :=
  {| title := title s; description := description s;
     summary_url := summary_url s; icon := v; thumbnail := thumbnail s;
     player := player s |}.

Definition set_thumbnail (s : SummalyResult) (v : Nullable string) : SummalyResult :=
  {| title := title s; description := description s;
     summary_url := summary_url s; icon := icon s; thumbnail := v;
     player := player s |}.

(** ** [wrap] *)
Section Wrap.

Variable config : Config.
(** The URL signer of the image proxy, an external library. *)
Variable generateImageUrl : ImgproxyRequest -> string.

Definition wrap (url : Nullable string) : Nullable string :=
  if truthyOpt (imgproxyURL config) then
    match url with
    | Val u =>
        if matchHttp u then
          Val (generateImageUrl
            {| img_endpoint := imgproxyURL config;
               img_key := imgproxyKey config;
               img_salt := imgproxySalt config;
               img_url := u;
               img_options := {| format := "webp"; height := 200;
                                 width := 0; enlarge := true;
                                 gravity_type := "sm";
                                 auto_rotate := true |} |})
        else Val u
    | _ => Null
    end
  else
    match url with
    | Val u =>
        if matchHttp u then
          Val (mediaProxy config +:+ "/preview.webp?" +:+
                 query [("url", QvString u); ("preview", QvString "1")])
        else Val u
    | _ => Null
    end.

End Wrap.

(** ** The handler's world and effects *)

(** [new ApiError({ message, code, id })] *)
Record ApiError : Type := {
  message : string;
  code : string;
  id : string
}.

(** What [handle] resolves to: a summary, or an object [{ error }]. The
    handler returning nothing ([undefined], an empty body) is [None]. *)
Inductive Body : Type :=
| BodySummary (summary : SummalyResult)
| BodyError (error : ApiError).

(** The reply under construction: status code (200 until set) and headers. *)
Record FastifyReply : Type := {
  statusCode : Z;
  headers : gmap string string
}.

(** A query parameter as the HTTP framework parses it. *)
Inductive QueryParam : Type :=
| QAbsent
| QSingle (s : string)
| QRepeated (l : list string).

Record FastifyRequest : Type := {
  query_url : QueryParam;
  query_lang : QueryParam
}.

(** [typeof p === 'string'] *)
Definition isString (p : QueryParam) : bool :=
  match p with QSingle _ => true | _ => false end.

(** [Array.isArray(p)] *)
Definition isArray (p : QueryParam) : bool :=
  match p with QRepeated _ => true | _ => false end.

(** A parameter that is not an array, as a [string | undefined]. *)
Definition paramValue (p : QueryParam) : Nullable string :=
  match p with QSingle s => Val s | _ => Undefined end.

(** The agents of [HttpRequestService]. *)
Inductive Agent : Type := HttpAgent | HttpsAgent.

Record Agents : Type := {
  http : Agent;
  https : Agent
}.

(** The options [fetchSummary] passes to [summaly]. *)
Record SummalyOptions : Type := {
  followRedirects : bool;
  lang : string;
  agent : option Agents;
  userAgent : option string;
  operationTimeout : Z;
  contentLengthLimit : Z;
  contentLengthRequired : bool
}.

Inductive LogLevel : Type := Info | Succ | Warn.

(** What the handler does to the outside, in order. *)
Inductive Event : Type :=
| EvCacheGet (k : string)
| EvCacheSet (k : string) (v : SummalyResult)
| EvSummaly (target : string) (opts : SummalyOptions)
| EvGetJson (target : string)
| EvLog (level : LogLevel) (msg : string).

Definition isCacheWrite (e : Event) : bool :=
  match e with EvCacheSet _ _ => true | _ => false end.
Definition isFetch (e : Event) : bool :=
  match e with EvSummaly _ _ | EvGetJson _ => true | _ => false end.

(** Modelled from the spec: [RedisKVCache] of [misc/cache] is not under src/.
    The spec gives it as a key-value store with [get(key)] returning the value
    or absent and [set(key, value)], which never computes a missing value on a
    read; it is a finite map here, expiry left out. *)
Record World : Type := {
  reply : FastifyReply;
  previewCache : gmap string SummalyResult;
  trace : list Event
}.

(** The completion of a computation: a value, or a thrown exception. *)
Inductive Completion (A : Type) : Type :=
| Normal (a : A)
| Throw (e : Exn).
Arguments Normal {A} a.
Arguments Throw {A} e.

Definition Eff (A : Type) : Type := World -> Completion A * World.

#[global] Instance Eff_ret : MRet Eff := fun A a w => (Normal a, w).
#[global] Instance Eff_bind : MBind Eff := fun A B f m w =>
  match m w with
  | (Normal a, w') => f a w'
  | (Throw e, w') => (Throw e, w')
  end.

Definition throw {A} (e : Exn) : Eff A := fun w => (Throw e, w).

(** [try { body } catch (err) { handler }]: what [body] did before it threw
    stays done. *)
Definition tryCatch {A} (body : Eff A) (handler : Exn -> Eff A) : Eff A :=
  fun w =>
    match body w with
    | (Normal a, w') => (Normal a, w')
    | (Throw e, w') => handler e w'
    end.

Definition emit (e : Event) (w : World) : World :=
  {| reply := reply w; previewCache := previewCache w;
     trace := trace w ++ [e] |}.

Definition setCode (n : Z) (w : World) : World :=
  {| reply := {| statusCode := n; headers := headers (reply w) |};
     previewCache := previewCache w; trace := trace w |}.

Definition setHeader (name value : string) (w : World) : World :=
  {| reply := {| statusCode := statusCode (reply w);
                 headers := <[name := value]> (headers (reply w)) |};
     previewCache := previewCache w; trace := trace w |}.

(** [reply.code(n)] *)
Definition replyCode (n : Z) : Eff unit := fun w => (Normal tt, setCode n w).

(** [reply.header(name, value)] *)
Definition replyHeader (name value : string) : Eff unit := fun w =>
  (Normal tt, setHeader name value w).

(** [this.previewCache.get(key)] *)
Definition cacheGet (k : string) : Eff (option SummalyResult) := fun w =>
  (Normal (previewCache w !! k), emit (EvCacheGet k) w).

Definition setCache (k : string) (v : SummalyResult) (w : World) : World :=
  {| reply := reply w; previewCache := <[k := v]> (previewCache w);
     trace := trace w |}.

(** [this.previewCache.set(key, value)] *)
Definition cacheSet (k : string) (v : SummalyResult) : Eff unit := fun w =>
  (Normal tt, emit (EvCacheSet k v) (setCache k v w)).

(** [this.logger.info / succ / warn] *)
Definition log (level : LogLevel) (msg : string) : Eff unit := fun w =>
  (Normal tt, emit (EvLog level msg) w).

(** ** The service *)

Definition disabledError : ApiError :=
  {| message := "URL preview is disabled";
     code := "URL_PREVIEW_DISABLED";
     id := "58b36e13-d2f5-0323-b0c6-76aa9dabefb8" |}.

Definition failedError : ApiError :=
  {| message := "Failed to get preview";
     code := "URL_PREVIEW_FAILED";
     id := "09d01cb5-53b9-4856-82e5-38a50c290a3b" |}.

(** [lang ?? 'ja-JP'] *)
Definition langOrDefault (lang : Nullable string) : string :=
  match lang with
  | Val l => l
  | _ => "ja-JP"
  end.

(** [`${url}@${lang}`], the key under which a preview is cached. *)
Definition cacheKey (url : string) (lang : Nullable string) : string :=
  url +:+ "@" +:+ template lang.

(** [summary.url.startsWith('http://') || summary.url.startsWith('https://')] *)
Definition hasHttpScheme (u : string) : bool :=
  startsWith u "http://" || startsWith u "https://".

(** The exception of reading [.url] off a [player] that is not an object. *)
Definition playerTypeError (p : Nullable Player) : Exn :=
  mkExn "TypeError"
    ("Cannot read properties of " +:+
     match p with Null => "null" | _ => "undefined" end +:+
     " (reading 'url')").

Definition unsupportedSchema : Exn :=
  mkExn "Error" "unsupported schema included".

Section Service.

Variable config : Config.
(** The snapshot [metaService.fetch()] resolves to. *)
Variable meta : MiMeta.
Variable generateImageUrl : ImgproxyRequest -> string.
(** The outside world's answers: [summaly(url, opts)] and
    [httpRequestService.getJson(url)] either resolve to a summary or
    reject. *)
Variable summaly : string -> SummalyOptions -> Completion SummalyResult.
Variable getJson : string -> Completion SummalyResult.

(** The options object [fetchSummary] builds. *)
Definition summalyOptions (meta : MiMeta) (lang : Nullable string)
  : SummalyOptions :=
  let agent := if truthyOpt (proxy config)
               then Some {| http := HttpAgent; https := HttpsAgent |}
               else None in
  {| followRedirects := false;
     lang := langOrDefault lang;
     agent := agent;
     userAgent := urlPreviewUserAgent meta;
     operationTimeout := urlPreviewTimeout meta;
     contentLengthLimit := urlPreviewMaximumContentLength meta;
     contentLengthRequired := urlPreviewRequireContentLength meta |}.

Definition fetchSummary (url : string) (meta : MiMeta) (lang : Nullable string)
  : Eff SummalyResult :=
  let opts := summalyOptions meta lang in
  fun w => (summaly url opts, emit (EvSummaly url opts) w).

(** The address [fetchSummaryFromProxy] requests: [`${proxy}?${queryStr}`]. *)
Definition proxyTarget (url : string) (meta : MiMeta) (lang : Nullable string)
  : string :=
  let proxy := match urlPreviewSummaryProxyUrl meta with
               | Some p => p
               | None => "null"
               end in
  let queryStr := query
    [("url", QvString url);
     ("lang", QvString (langOrDefault lang));
     ("userAgent", from_option QvString QvUndefined (urlPreviewUserAgent meta));
     ("operationTimeout", QvNumber (urlPreviewTimeout meta));
     ("contentLengthLimit", QvNumber (urlPreviewMaximumContentLength meta));
     ("contentLengthRequired", QvBoolean (urlPreviewRequireContentLength meta))] in
  proxy +:+ "?" +:+ queryStr.

Definition fetchSummaryFromProxy (url : string) (meta : MiMeta)
    (lang : Nullable string) : Eff SummalyResult :=
  let target := proxyTarget url meta lang in
  fun w => (getJson target, emit (EvGetJson target) w).

(** The [try] block of [handle]. *)
Definition handle_try (url : string) (lang : Nullable string) (key : string)
  : Eff (option Body) :=
  summary ← (if truthyOpt (urlPreviewSummaryProxyUrl meta)
             then fetchSummaryFromProxy url meta lang
             else fetchSummary url meta lang);
  log Succ ("Got preview of " +:+ url +:+ ": " +:+ template (title summary)) ;;
  (if negb (hasHttpScheme (summary_url summary))
   then throw unsupportedSchema else mret tt) ;;
  match player summary with
  | Val p =>
      match player_url p with
      | Val pu =>
          if truthyStr pu && negb (hasHttpScheme pu)
          then throw unsupportedSchema else mret tt
      | _ => mret tt
      end
  | nullish => throw (playerTypeError nullish)
  end ;;
  let summary := set_icon summary (wrap config generateImageUrl (icon summary)) in
  let summary := set_thumbnail summary
                   (wrap config generateImageUrl (thumbnail summary)) in
  cacheSet key summary ;;
  replyHeader "Cache-Control" "max-age=604800, immutable" ;;
  mret (Some (BodySummary summary)).

(** The [catch (err)] block of [handle]. *)
Definition handle_catch (url : string) (err : Exn) : Eff (option Body) :=
  log Warn ("Failed to get preview of " +:+ url +:+ ": " +:+ exnToString err) ;;
  replyCode 422 ;;
  replyHeader "Cache-Control" "max-age=86400, immutable" ;;
  mret (Some (BodyError failedError)).

Definition handle (request : FastifyRequest) : Eff (option Body) :=
  match query_url request with
  | QSingle url =>
      let lang := query_lang request in
      if isArray lang then
        replyCode 400 ;; mret None
      else
        let lang := paramValue lang in
        if negb (urlPreviewEnabled meta) then
          replyCode 403 ;;
          mret (Some (BodyError disabledError))
        else
          let key := cacheKey url lang in
          cached ← cacheGet key;
          match cached with
          | Some cached =>
              log Info ("Returning cache preview of " +:+ key) ;;
              replyHeader "Cache-Control" "max-age=604800, immutable" ;;
              mret (Some (BodySummary cached))
          | None =>
              log Info (if truthyOpt (urlPreviewSummaryProxyUrl meta)
                        then "(Proxy) Getting preview of " +:+ key +:+ " ..."
                        else "Getting preview of " +:+ key +:+ " ...") ;;
              tryCatch (handle_try url lang key) (handle_catch url)
          end
  | _ => replyCode 400 ;; mret None
  end.

(** What the fetch step of [handle_try] resolves to, and the outbound call
    it makes, by the strategy the configuration selects. *)
Definition fetchOutcome (url : string) (lang : Nullable string)
  : Completion SummalyResult :=
  if truthyOpt (urlPreviewSummaryProxyUrl meta)
  then getJson (proxyTarget url meta lang)
  else summaly url (summalyOptions meta lang).

Definition fetchEvent (url : string) (lang : Nullable string) : Event :=
  if truthyOpt (urlPreviewSummaryProxyUrl meta)
  then EvGetJson (proxyTarget url meta lang)
  else EvSummaly url (summalyOptions meta lang).

(** The world in which the [try] block starts after a cache miss. *)
Definition missEntry (url : string) (lang : Nullable string) (w : World)
  : World :=
  let key := cacheKey url lang in
  emit (EvLog Info (if truthyOpt (urlPreviewSummaryProxyUrl meta)
                    then "(Proxy) Getting preview of " +:+ key +:+ " ..."
                    else "Getting preview of " +:+ key +:+ " ..."))
    (emit (EvCacheGet key) w).

(** The world once the fetch has resolved to [summary] and was logged. *)
Definition gotPreview (url : string) (lang : Nullable string)
    (summary : SummalyResult) (w : World) : World :=
  emit (EvLog Succ ("Got preview of " +:+ url +:+ ": "
                    +:+ template (title summary)))
    (emit (fetchEvent url lang) w).

(** The summary as [handle_try] rewrites it before caching. *)
Definition rewritten (summary : SummalyResult) : SummalyResult :=
  set_thumbnail
    (set_icon summary (wrap config generateImageUrl (icon summary)))
    (wrap config generateImageUrl (thumbnail summary)).

End Service.

(** ** Reading the result of a run *)

(** The events a run from [w] to [w'] added to the trace. *)
Definition performs (w w' : World) (evs : list Event) : Prop :=
  trace w' = trace w ++ evs.

(** No event of the kind [p] among [evs]. *)
Definition noneOf (p : Event -> bool) (evs : list Event) : Prop :=
  Forall (fun e => p e = false) evs.

(** [c] occurs in [s]. *)
Fixpoint contains (c : ascii) (s : string) : bool :=
  match s with
  | EmptyString => false
  | String c' rest => if Ascii.eqb c c' then true else contains c rest
  end.

(** A request whose parameters pass the handler's shape checks: [url] is a
    single string, [lang] is a single string or absent. *)
Definition wellFormed (request : FastifyRequest) (url : string)
    (lang : Nullable string) : Prop :=
  query_url request = QSingle url /\
  isArray (query_lang request) = false /\
  paramValue (query_lang request) = lang.

(** ** The paths of the handler *)

(** The two scheme checks of [handle_try] in one: the exception they throw on
    [summary], if any. *)
Definition schemeCheck (summary : SummalyResult) : option Exn :=
  if negb (hasHttpScheme (summary_url summary)) then Some unsupportedSchema
  else
    match player summary with
    | Val p =>
        match player_url p with
        | Val pu =>
            if truthyStr pu && negb (hasHttpScheme pu)
            then Some unsupportedSchema else None
        | _ => None
        end
    | nullish => Some (playerTypeError nullish)
    end.

(** The world [handle_catch] leaves. *)
Definition failed (url : string) (err : Exn) (w : World) : World :=
  setHeader "Cache-Control" "max-age=86400, immutable"
    (setCode 422
       (emit (EvLog Warn ("Failed to get preview of " +:+ url +:+ ": "
                          +:+ exnToString err)) w)).

(** The world a cache hit leaves. *)
Definition served (key : string) (w : World) : World :=
  setHeader "Cache-Control" "max-age=604800, immutable"
    (emit (EvLog Info ("Returning cache preview of " +:+ key))
       (emit (EvCacheGet key) w)).


(** The number of occurrences of [c] in [s]. *)
Fixpoint occurrences (c : ascii) (s : string) : nat :=
  match s with
  | EmptyString => O
  | String c' rest =>
      if Ascii.eqb c c' then S (occurrences c rest) else occurrences c rest
  end.

Section Paths.

Variable config : Config.
Variable meta : MiMeta.
Variable generateImageUrl : ImgproxyRequest -> string.
Variable summaly : string -> SummalyOptions -> Completion SummalyResult.
Variable getJson : string -> Completion SummalyResult.

(** The world in which a fetched and checked summary has been stored. *)
Definition stored (url : string) (lang : Nullable string)
    (summary : SummalyResult) (w : World) : World :=
  let key := cacheKey url lang in
  let summary' := rewritten config generateImageUrl summary in
  setHeader "Cache-Control" "max-age=604800, immutable"
    (emit (EvCacheSet key summary')
       (setCache key summary'
          (gotPreview config meta url lang summary (missEntry meta url lang w)))).

(** The six ways through [handle], each with its result. *)
Inductive Path (request : FastifyRequest) (w : World)
  : Completion (option Body) * World -> Prop :=
| PathMalformed :
    isString (query_url request) = false
    \/ isArray (query_lang request) = true ->
    Path request w (Normal None, setCode 400 w)
| PathDisabled url lang :
    wellFormed request url lang ->
    urlPreviewEnabled meta = false ->
    Path request w (Normal (Some (BodyError disabledError)), setCode 403 w)
| PathHit url lang cached :
    wellFormed request url lang ->
    urlPreviewEnabled meta = true ->
    previewCache w !! cacheKey url lang = Some cached ->
    Path request w
      (Normal (Some (BodySummary cached)), served (cacheKey url lang) w)
| PathFetchFailed url lang e :
    wellFormed request url lang ->
    urlPreviewEnabled meta = true ->
    previewCache w !! cacheKey url lang = None ->
    fetchOutcome config meta summaly getJson url lang = Throw e ->
    Path request w
      (Normal (Some (BodyError failedError)),
       failed url e
         (emit (fetchEvent config meta url lang) (missEntry meta url lang w)))
| PathRejected url lang s e :
    wellFormed request url lang ->
    urlPreviewEnabled meta = true ->
    previewCache w !! cacheKey url lang = None ->
    fetchOutcome config meta summaly getJson url lang = Normal s ->
    schemeCheck s = Some e ->
    Path request w
      (Normal (Some (BodyError failedError)),
       failed url e
         (gotPreview config meta url lang s (missEntry meta url lang w)))
| PathStored url lang s :
    wellFormed request url lang ->
    urlPreviewEnabled meta = true ->
    previewCache w !! cacheKey url lang = None ->
    fetchOutcome config meta summaly getJson url lang = Normal s ->
    schemeCheck s = None ->
    Path request w
      (Normal (Some (BodySummary (rewritten config generateImageUrl s))),
       stored url lang s w).

(** The query string [fetchSummaryFromProxy] appends to the proxy address. *)
Definition proxyQueryStr (url : string) (meta : MiMeta)
    (lang : Nullable string) : string :=
  query
    [("url", QvString url);
     ("lang", QvString (langOrDefault lang));
     ("userAgent", from_option QvString QvUndefined (urlPreviewUserAgent meta));
     ("operationTimeout", QvNumber (urlPreviewTimeout meta));
     ("contentLengthLimit", QvNumber (urlPreviewMaximumContentLength meta));
     ("contentLengthRequired", QvBoolean (urlPreviewRequireContentLength meta))].

End Paths.

(** A summary that passes both scheme checks. *)
Definition wellSchemed (summary : SummalyResult) : Prop :=
  hasHttpScheme (summary_url summary) = true
  /\ exists p, player summary = Val p
       /\ (truthy (player_url p) = false
           \/ exists pu, player_url p = Val pu /\ hasHttpScheme pu = true).

(** ** A sample deployment *)
Module Sample.

Definition config : Config :=
  {| imgproxyURL := None; imgproxyKey := None; imgproxySalt := None;
     mediaProxy := "https://media.example/proxy"; proxy := None |}.

Definition meta : MiMeta :=
  {| urlPreviewEnabled := true;
     urlPreviewSummaryProxyUrl := None;
     urlPreviewUserAgent := None;
     urlPreviewTimeout := 10000;
     urlPreviewMaximumContentLength := 10485760;
     urlPreviewRequireContentLength := false |}.

Definition metaOff : MiMeta :=
  {| urlPreviewEnabled := false;
     urlPreviewSummaryProxyUrl := None;
     urlPreviewUserAgent := None;
     urlPreviewTimeout := 10000;
     urlPreviewMaximumContentLength := 10485760;
     urlPreviewRequireContentLength := false |}.

Definition generateImageUrl (r : ImgproxyRequest) : string :=
  "https://imgproxy.example/insecure/plain/" +:+ img_url r.

Definition noPlayerUrl : Player := {| player_url := Null |}.

Definition page : SummalyResult :=
  {| title := Val "Example Domain";
     description := Null;
     summary_url := "https://example.com/";
     icon := Val "/favicon.ico";
     thumbnail := Undefined;
     player := Val noPlayerUrl |}.

Definition scriptPage : SummalyResult :=
  {| title := Val "Script";
     description := Null;
     summary_url := "javascript:alert(1)";
     icon := Null;
     thumbnail := Null;
     player := Val noPlayerUrl |}.

Definition playerless : SummalyResult :=
  {| title := Val "No player";
     description := Null;
     summary_url := "https://playerless.example/";
     icon := Null;
     thumbnail := Null;
     player := Undefined |}.

Definition embedPage : SummalyResult :=
  {| title := Val "Embed";
     description := Null;
     summary_url := "https://embed.example/";
     icon := Null;
     thumbnail := Null;
     player := Val {| player_url := Val "javascript:alert(1)" |} |}.

Definition timeout : Exn := mkExn "Error" "operation timed out".

(** The outside world: four pages answer, everything else times out. *)
Definition summaly (url : string) (opts : SummalyOptions)
  : Completion SummalyResult :=
  if String.eqb url "https://example.com/" then Normal page
  else if String.eqb url "https://script.example/" then Normal scriptPage
  else if String.eqb url "https://playerless.example/" then Normal playerless
  else if String.eqb url "https://embed.example/" then Normal embedPage
  else Throw timeout.

Definition getJson (target : string) : Completion SummalyResult :=
  Throw timeout.

Definition request (url : string) : FastifyRequest :=
  {| query_url := QSingle url; query_lang := QAbsent |}.

Definition fresh : World :=
  {| reply := {| statusCode := 200; headers := ∅ |};
     previewCache := ∅;
     trace := [] |}.

(** A world whose cache holds [page] for [https://example.com/], no [lang]. *)
Definition warm : World :=
  {| reply := {| statusCode := 200; headers := ∅ |};
     previewCache := {[ cacheKey "https://example.com/" Undefined := page ]};
     trace := [] |}.

End Sample.

(** A second outside world, in which every address answers with the same
    page, and a request with both parameters. *)
Module Mirror.

Definition summaly (url : string) (opts : SummalyOptions)
  : Completion SummalyResult :=
  Normal Sample.page.

Definition request (url lang : string) : FastifyRequest :=
  {| query_url := QSingle url; query_lang := QSingle lang |}.

End Mirror.

(** * Properties *)

(** ** Strings *)

Lemma append_cons (c : ascii) (s t : string) :
  String c s +:+ t = String c (s +:+ t).
Proof. reflexivity. Qed.

Lemma append_empty_l (t : string) : "" +:+ t = t.
Proof. reflexivity. Qed.

Lemma append_inj_r (s a b : string) : s +:+ a = s +:+ b -> a = b.
Proof.
  induction s as [|c s IH]; intros H.
  - exact H.
  - rewrite !append_cons in H. injection H as H. auto.
Qed.

Lemma contains_append_cons (c : ascii) (a b : string) :
  contains c (a +:+ String c b) = true.
Proof.
  induction a as [|x a IH].
  - rewrite append_empty_l. simpl. now rewrite Ascii.eqb_refl.
  - rewrite append_cons. simpl. rewrite IH. now destruct (Ascii.eqb c x).
Qed.

(** A text [a ++ c ++ b] with no [c] in [b] splits at its last [c] in one
    way only. *)
Lemma split_last_unique (c : ascii) (a1 a2 b1 b2 : string) :
  contains c b1 = false -> contains c b2 = false ->
  a1 +:+ String c b1 = a2 +:+ String c b2 ->
  a1 = a2 /\ b1 = b2.
Proof.
  intros H1 H2. revert a2.
  induction a1 as [|x a1 IH]; intros [|y a2] E.
  - rewrite !append_empty_l in E. injection E as E. auto.
  - rewrite append_empty_l, append_cons in E. injection E as -> E.
    rewrite E, contains_append_cons in H1. discriminate.
  - rewrite append_empty_l, append_cons in E. injection E as -> E.
    rewrite <- E, contains_append_cons in H2. discriminate.
  - rewrite !append_cons in E. injection E as -> E.
    destruct (IH _ E) as [-> ->]. auto.
Qed.

(** ** The cache key *)

Lemma cacheKey_inj_lang (url : string) (l1 l2 : Nullable string) :
  cacheKey url l1 = cacheKey url l2 -> template l1 = template l2.
Proof.
  unfold cacheKey. intros H. apply append_inj_r in H.
  now injection H.
Qed.

(** Two distinct [(url, lang)] pairs that share a key, and an absent [lang]
    sharing its key with the tag [undefined]: the key is a plain
    concatenation around [@]. *)
Lemma cacheKey_collisions :
  (("https://example.com/@a", Val "b") <> ("https://example.com/", Val "a@b")
   /\ cacheKey "https://example.com/@a" (Val "b")
      = cacheKey "https://example.com/" (Val "a@b"))
  /\ ((Undefined : Nullable string) <> Val "undefined"
      /\ cacheKey "https://example.com/" Undefined
         = cacheKey "https://example.com/" (Val "undefined")).
Proof.
  repeat split; try discriminate; reflexivity.
Qed.

(** C5 (amended).  The key is a function of the pair, so equal pairs share a
    key; for one URL, two language tags that render differently (an absent
    tag renders as the text [undefined]) give distinct keys; and two pairs
    that differ in the URL or in the rendered tag give distinct keys as long
    as neither rendered tag contains the delimiter [@]. *)
Theorem cacheKey_stable_and_separating :
  (forall u1 u2 l1 l2, u1 = u2 -> l1 = l2 -> cacheKey u1 l1 = cacheKey u2 l2)
  /\ (forall url l1 l2,
        template l1 <> template l2 -> cacheKey url l1 <> cacheKey url l2)
  /\ (forall u1 u2 l1 l2,
        contains "@" (template l1) = false ->
        contains "@" (template l2) = false ->
        u1 <> u2 \/ template l1 <> template l2 ->
        cacheKey u1 l1 <> cacheKey u2 l2).
Proof.
  split; [|split].
  - intros u1 u2 l1 l2 -> ->. reflexivity.
  - intros url l1 l2 Hne E. apply Hne. exact (cacheKey_inj_lang _ _ _ E).
  - intros u1 u2 l1 l2 H1 H2 Hne E. unfold cacheKey in E.
    destruct (split_last_unique "@" u1 u2 (template l1) (template l2) H1 H2 E)
      as [Hu Hl].
    destruct Hne as [Hne|Hne]; contradiction.
Qed.

Lemma cacheKey_stable_and_separating_witness :
  cacheKey "https://example.com/" (Val "en-US")
    = cacheKey "https://example.com/" (Val "en-US")
  /\ cacheKey "https://example.com/" (Val "en-US")
     <> cacheKey "https://example.com/" Undefined
  /\ cacheKey "https://example.com/@a" (Val "b")
     <> cacheKey "https://example.com/" (Val "b").
Proof.
  destruct cacheKey_stable_and_separating as (Hsame & Hlang & Hpair).
  split; [|split].
  - apply Hsame; reflexivity.
  - apply Hlang. simpl. discriminate.
  - apply Hpair; [reflexivity | reflexivity | left; discriminate].
Defined.

(** ** [wrap] *)

Lemma percentDecode_encode (s : string) :
  percentDecode (encodeURIComponent s) = Some s.
Proof.
  induction s as [|c s IH]; [reflexivity|].
  destruct c as [[] [] [] [] [] [] [] []];
    cbn [encodeURIComponent];
    cbv beta iota zeta delta
      -[percentDecode encodeURIComponent option_map];
    cbn [percentDecode]; rewrite IH; reflexivity.
Qed.

Lemma query_url_preview (u : string) :
  query [("url", QvString u); ("preview", QvString "1")]
  = "url=" +:+ encodeURIComponent u +:+ "&preview=1".
Proof. reflexivity. Qed.

Section WrapFacts.

Variable config : Config.
Variable generateImageUrl : ImgproxyRequest -> string.

Local Abbreviation wrap' := (wrap config generateImageUrl).

Lemma wrap_nullish (v : Nullable string) :
  notNullish v = false -> wrap' v = Null.
Proof.
  unfold wrap. destruct v; try discriminate; intros _;
    destruct (truthyOpt (imgproxyURL config)); reflexivity.
Qed.

Lemma wrap_non_http (u : string) :
  matchHttp u = false -> wrap' (Val u) = Val u.
Proof.
  intros H. unfold wrap. rewrite H.
  destruct (truthyOpt (imgproxyURL config)); reflexivity.
Qed.

Lemma wrap_media_proxy (u : string) :
  truthyOpt (imgproxyURL config) = false ->
  matchHttp u = true ->
  wrap' (Val u)
  = Val (mediaProxy config +:+ "/preview.webp?" +:+
           query [("url", QvString u); ("preview", QvString "1")]).
Proof. intros Hc H. unfold wrap. rewrite Hc, H. reflexivity. Qed.

(** C7.  [wrap] is a function of the configuration and its argument alone.
    It sends [null] (and [undefined]) to [null]; it returns unchanged every
    string that does not start with [http://] or [https://]; and, with no
    image-proxy endpoint configured, it sends an http(s) URL [u] to
    [<mediaProxy>/preview.webp?url=<u, percent-encoded>&preview=1], from
    whose [url] parameter [u] is read back. *)
Theorem wrap_spec :
  wrap' Null = Null
  /\ wrap' Undefined = Null
  /\ (forall u, matchHttp u = false -> wrap' (Val u) = Val u)
  /\ (forall u,
        truthyOpt (imgproxyURL config) = false ->
        matchHttp u = true ->
        wrap' (Val u)
        = Val (mediaProxy config +:+ "/preview.webp?" +:+
                 query [("url", QvString u); ("preview", QvString "1")])
        /\ query [("url", QvString u); ("preview", QvString "1")]
           = "url=" +:+ encodeURIComponent u +:+ "&preview=1"
        /\ percentDecode (encodeURIComponent u) = Some u).
Proof.
  split; [now apply wrap_nullish|]. split; [now apply wrap_nullish|].
  split; [exact wrap_non_http|].
  intros u Hc H. split; [now apply wrap_media_proxy|].
  split; [apply query_url_preview | apply percentDecode_encode].
Qed.

End WrapFacts.

(** ** The handler *)

Ltac run :=
  unfold mbind, Eff_bind, mret, Eff_ret, throw, tryCatch, log, replyCode,
    replyHeader, cacheGet, cacheSet; simpl.

Section HandleFacts.

Variable config : Config.
Variable meta : MiMeta.
Variable generateImageUrl : ImgproxyRequest -> string.
Variable summaly : string -> SummalyOptions -> Completion SummalyResult.
Variable getJson : string -> Completion SummalyResult.

Local Abbreviation handle' :=
  (handle config meta generateImageUrl summaly getJson).
Local Abbreviation handle_try' :=
  (handle_try config meta generateImageUrl summaly getJson).
Local Abbreviation fetchOutcome' := (fetchOutcome config meta summaly getJson).
Local Abbreviation fetchEvent' := (fetchEvent config meta).
Local Abbreviation missEntry' := (missEntry meta).
Local Abbreviation rewritten' := (rewritten config generateImageUrl).
Local Abbreviation wrap' := (wrap config generateImageUrl).
Local Abbreviation gotPreview' := (gotPreview config meta).

Lemma fetch_run (url : string) (lang : Nullable string) (w : World) :
  (if truthyOpt (urlPreviewSummaryProxyUrl meta)
   then fetchSummaryFromProxy getJson url meta lang
   else fetchSummary config summaly url meta lang) w
  = (fetchOutcome' url lang, emit (fetchEvent' url lang) w).
Proof.
  unfold fetchOutcome, fetchEvent.
  destruct (truthyOpt (urlPreviewSummaryProxyUrl meta)); reflexivity.
Qed.

Lemma handle_catch_run (url : string) (err : Exn) (w : World) :
  handle_catch url err w
  = (Normal (Some (BodyError failedError)),
     setHeader "Cache-Control" "max-age=86400, immutable"
       (setCode 422
          (emit (EvLog Warn ("Failed to get preview of " +:+ url +:+ ": "
                             +:+ exnToString err)) w))).
Proof. reflexivity. Qed.

(** Past the shape checks and the feature flag, a cache miss enters the
    [try] block. *)
Lemma handle_miss_run request url lang w :
  wellFormed request url lang ->
  urlPreviewEnabled meta = true ->
  previewCache w !! cacheKey url lang = None ->
  handle' request w
  = tryCatch (handle_try' url lang (cacheKey url lang)) (handle_catch url)
      (missEntry' url lang w).
Proof.
  intros (Hu & Ha & Hl) Hen Hmiss. unfold handle.
  rewrite Hu, Ha, Hl, Hen. run. rewrite Hmiss. reflexivity.
Qed.

(** A rejected fetch leaves the [try] block at once. *)
Lemma handle_try_fetch_throws url lang key e w :
  fetchOutcome' url lang = Throw e ->
  handle_try' url lang key w = (Throw e, emit (fetchEvent' url lang) w).
Proof.
  intros H. unfold handle_try. run. rewrite fetch_run, H. reflexivity.
Qed.

(** The [try] block after a fetch that resolved: the two scheme checks, then
    rewrite, store and return. *)
Lemma handle_try_fetched url lang key s w :
  fetchOutcome' url lang = Normal s ->
  handle_try' url lang key w
  = let w1 := gotPreview' url lang s w in
    let stored :=
      (Normal (Some (BodySummary (rewritten' s))),
       setHeader "Cache-Control" "max-age=604800, immutable"
         (emit (EvCacheSet key (rewritten' s))
            (setCache key (rewritten' s) w1))) in
    if negb (hasHttpScheme (summary_url s)) then (Throw unsupportedSchema, w1)
    else
      match player s with
      | Val p =>
          match player_url p with
          | Val pu =>
              if truthyStr pu && negb (hasHttpScheme pu)
              then (Throw unsupportedSchema, w1)
              else stored
          | _ => stored
          end
      | nullish => (Throw (playerTypeError nullish), w1)
      end.
Proof.
  intros H. unfold handle_try. run. rewrite fetch_run, H. simpl.
  destruct (hasHttpScheme (summary_url s)); simpl; [|reflexivity].
  destruct (player s) as [| |p]; simpl; try reflexivity.
  destruct (player_url p) as [| |pu]; simpl; try reflexivity.
  destruct (truthyStr pu && negb (hasHttpScheme pu)); reflexivity.
Qed.

(** Whenever the [try] block throws, it has not touched the reply or the
    cache, and has made one outbound call and no cache call. *)
Lemma handle_try_throw_inv url lang key e w w1 :
  handle_try' url lang key w = (Throw e, w1) ->
  reply w1 = reply w /\ previewCache w1 = previewCache w /\
  exists evs, performs w w1 (fetchEvent' url lang :: evs) /\
              noneOf isCacheWrite (fetchEvent' url lang :: evs) /\
              noneOf isFetch evs.
Proof.
  assert (Hfe : isCacheWrite (fetchEvent' url lang) = false).
  { unfold fetchEvent. now destruct (truthyOpt _). }
  destruct (fetchOutcome' url lang) as [s|e0] eqn:Hf.
  - rewrite (handle_try_fetched _ _ _ _ _ Hf). cbv zeta.
    set (w' := gotPreview' url lang s w).
    assert (Hw' : reply w' = reply w /\ previewCache w' = previewCache w /\
      exists evs, performs w w' (fetchEvent' url lang :: evs) /\
                  noneOf isCacheWrite (fetchEvent' url lang :: evs) /\
                  noneOf isFetch evs).
    { repeat split. eexists. unfold performs, noneOf. subst w'. simpl.
      rewrite <- app_assoc. simpl. split; [reflexivity|].
      split; repeat constructor. exact Hfe. }
    destruct (hasHttpScheme (summary_url s)); simpl.
    + destruct (player s) as [| |p].
      * intros [= <- <-]. exact Hw'.
      * intros [= <- <-]. exact Hw'.
      * destruct (player_url p) as [| |pu]; try discriminate.
        destruct (truthyStr pu && negb (hasHttpScheme pu)); try discriminate.
        intros [= <- <-]. exact Hw'.
    + intros [= <- <-]. exact Hw'.
  - rewrite (handle_try_fetch_throws _ _ _ _ _ Hf). intros [= <- <-].
    repeat split. exists []. unfold performs, noneOf. simpl.
    split; [reflexivity|]. split; repeat constructor. exact Hfe.
Qed.

(** A throw of the [try] block becomes the failure response. *)
Lemma handle_failed_run request url lang e w w1 :
  wellFormed request url lang ->
  urlPreviewEnabled meta = true ->
  previewCache w !! cacheKey url lang = None ->
  handle_try' url lang (cacheKey url lang) (missEntry' url lang w)
    = (Throw e, w1) ->
  handle' request w = handle_catch url e w1.
Proof.
  intros Hwf Hen Hmiss Htry.
  rewrite (handle_miss_run _ _ _ _ Hwf Hen Hmiss).
  unfold tryCatch. rewrite Htry. reflexivity.
Qed.

(** The failure response, read off the world [handle_catch] leaves. *)
Lemma handle_catch_response url e w :
  exists w', handle_catch url e w = (Normal (Some (BodyError failedError)), w')
    /\ statusCode (reply w') = 422
    /\ headers (reply w') !! "Cache-Control" = Some "max-age=86400, immutable"
    /\ previewCache w' = previewCache w
    /\ exists msg, performs w w' [EvLog Warn msg].
Proof.
  eexists. rewrite handle_catch_run. split; [reflexivity|].
  simpl. split; [reflexivity|]. split; [apply lookup_insert_eq|].
  split; [reflexivity|]. eexists. reflexivity.
Qed.

(** [handle] never lets an exception escape. *)
Lemma handle_total request w :
  exists body w', handle' request w = (Normal body, w').
Proof.
  unfold handle.
  destruct (query_url request) as [|url|l]; [eauto| |eauto].
  cbv zeta. destruct (isArray (query_lang request)); [eauto|].
  destruct (urlPreviewEnabled meta); simpl; [|eauto].
  run. destruct (previewCache w !! _); [eauto|].
  match goal with |- context [handle_try' ?u ?l ?k ?w0] =>
    destruct (handle_try' u l k w0) as [[b|e] w1] end; eauto.
Qed.

(** C8.  A request whose [url] parameter is missing or not a single string,
    or whose [lang] parameter is repeated (an array), gets status 400 and an
    empty body; the handler makes no cache read, no cache write and no
    outbound fetch. *)
Theorem handle_malformed_request request w :
  isString (query_url request) = false \/ isArray (query_lang request) = true ->
  exists w', handle' request w = (Normal None, w')
    /\ statusCode (reply w') = 400
    /\ headers (reply w') = headers (reply w)
    /\ previewCache w' = previewCache w
    /\ performs w w' [].
Proof.
  intros H. exists (setCode 400 w). split.
  - unfold handle.
    destruct (query_url request) as [|url|l]; try reflexivity.
    destruct H as [H|H]; [discriminate|]. cbv zeta. rewrite H. reflexivity.
  - unfold performs. simpl. rewrite app_nil_r. auto.
Qed.

(** C3.  With the feature flag off, every well-formed request gets status 403
    and the error envelope with code URL_PREVIEW_DISABLED and its fixed
    identifier; the handler makes no cache read, no cache write and no
    outbound fetch. *)
Theorem handle_feature_disabled request url lang w :
  wellFormed request url lang ->
  urlPreviewEnabled meta = false ->
  exists w', handle' request w = (Normal (Some (BodyError disabledError)), w')
    /\ statusCode (reply w') = 403
    /\ code disabledError = "URL_PREVIEW_DISABLED"
    /\ id disabledError = "58b36e13-d2f5-0323-b0c6-76aa9dabefb8"
    /\ previewCache w' = previewCache w
    /\ performs w w' [].
Proof.
  intros (Hu & Ha & Hl) Hoff. exists (setCode 403 w). split.
  - unfold handle. rewrite Hu. cbv zeta. rewrite Ha, Hoff. reflexivity.
  - unfold performs. simpl. rewrite app_nil_r. auto 6.
Qed.

(** A hit: log, header, and the stored value. *)
Lemma handle_hit_run request url lang cached w :
  wellFormed request url lang ->
  urlPreviewEnabled meta = true ->
  previewCache w !! cacheKey url lang = Some cached ->
  handle' request w
  = (Normal (Some (BodySummary cached)),
     setHeader "Cache-Control" "max-age=604800, immutable"
       (emit (EvLog Info ("Returning cache preview of " +:+ cacheKey url lang))
          (emit (EvCacheGet (cacheKey url lang)) w))).
Proof.
  intros (Hu & Ha & Hl) Hen Hhit.
  unfold handle. rewrite Hu. cbv zeta. rewrite Ha, Hl, Hen. run.
  rewrite Hhit. reflexivity.
Qed.

(** C2.  A request that reaches the cache lookup (well-formed, feature on)
    and whose key is in the cache gets the stored summary unchanged, with
    [Cache-Control: max-age=604800, immutable]; the handler makes no outbound
    fetch, neither [summaly] nor the proxy, and does not write the cache. *)
Theorem handle_cache_hit request url lang cached w :
  wellFormed request url lang ->
  urlPreviewEnabled meta = true ->
  previewCache w !! cacheKey url lang = Some cached ->
  exists w' evs,
    handle' request w = (Normal (Some (BodySummary cached)), w')
    /\ headers (reply w') !! "Cache-Control" = Some "max-age=604800, immutable"
    /\ statusCode (reply w') = statusCode (reply w)
    /\ previewCache w' = previewCache w
    /\ performs w w' evs /\ noneOf isFetch evs /\ noneOf isCacheWrite evs.
Proof.
  intros Hwf Hen Hhit. do 2 eexists. split.
  - exact (handle_hit_run _ _ _ _ _ Hwf Hen Hhit).
  - simpl. split; [apply lookup_insert_eq|]. split; [reflexivity|].
    split; [reflexivity|]. unfold performs, noneOf. simpl.
    rewrite <- app_assoc. split; [reflexivity|].
    split; repeat constructor.
Qed.

(** A miss whose [try] block throws: the failure response, the cache as it
    was, one outbound call and no cache write. *)
Lemma handle_failed_response request url lang e w w1 :
  wellFormed request url lang ->
  urlPreviewEnabled meta = true ->
  previewCache w !! cacheKey url lang = None ->
  handle_try' url lang (cacheKey url lang) (missEntry' url lang w)
    = (Throw e, w1) ->
  exists w' evs,
    handle' request w = (Normal (Some (BodyError failedError)), w')
    /\ statusCode (reply w') = 422
    /\ headers (reply w') !! "Cache-Control" = Some "max-age=86400, immutable"
    /\ previewCache w' = previewCache w
    /\ performs w w' evs /\ noneOf isCacheWrite evs.
Proof.
  intros Hwf Hen Hmiss Htry.
  rewrite (handle_failed_run _ _ _ _ _ _ Hwf Hen Hmiss Htry).
  destruct (handle_try_throw_inv _ _ _ _ _ _ Htry)
    as (_ & Hc & evs & Hp & Hnw & _).
  destruct (handle_catch_response url e w1)
    as (w' & -> & Hs & Hh & Hc' & msg & Hp').
  exists w', (EvCacheGet (cacheKey url lang)
              :: EvLog Info (if truthyOpt (urlPreviewSummaryProxyUrl meta)
                   then "(Proxy) Getting preview of " +:+ cacheKey url lang +:+ " ..."
                   else "Getting preview of " +:+ cacheKey url lang +:+ " ...")
              :: ((fetchEvent' url lang :: evs) ++ [EvLog Warn msg])).
  split; [reflexivity|]. split; [exact Hs|]. split; [exact Hh|].
  split; [now rewrite Hc', Hc|]. split.
  - unfold performs in *. rewrite Hp', Hp. unfold missEntry. simpl.
    now rewrite <- !app_assoc.
  - unfold noneOf in *. do 2 (constructor; [reflexivity|]).
    apply Forall_app. split; [exact Hnw|]. now repeat constructor.
Qed.

(** C1.  On a miss, a fetched summary whose canonical URL does not start with
    [http://] or [https://], or whose player URL is present (a non-empty
    string, the handler's own test) and does not start with either, gets the
    422 failure response; nothing is stored under the key, the cache is left
    as it was. *)
Theorem handle_unsupported_scheme request url lang s w :
  wellFormed request url lang ->
  urlPreviewEnabled meta = true ->
  previewCache w !! cacheKey url lang = None ->
  fetchOutcome' url lang = Normal s ->
  hasHttpScheme (summary_url s) = false
  \/ (exists p pu, player s = Val p /\ player_url p = Val pu
                   /\ truthyStr pu = true /\ hasHttpScheme pu = false) ->
  exists w' evs,
    handle' request w = (Normal (Some (BodyError failedError)), w')
    /\ statusCode (reply w') = 422
    /\ headers (reply w') !! "Cache-Control" = Some "max-age=86400, immutable"
    /\ previewCache w' = previewCache w
    /\ previewCache w' !! cacheKey url lang = None
    /\ performs w w' evs /\ noneOf isCacheWrite evs.
Proof.
  intros Hwf Hen Hmiss Hf Hbad.
  assert (Htry : exists e w1,
    handle_try' url lang (cacheKey url lang) (missEntry' url lang w)
      = (Throw e, w1)).
  { rewrite (handle_try_fetched _ _ _ _ _ Hf). cbv zeta.
    destruct (hasHttpScheme (summary_url s)) eqn:Hu; simpl; [|eauto].
    destruct Hbad as [Hbad | (p & pu & Hp & Hpu & Ht & Hs)]; [discriminate|].
    rewrite Hp, Hpu, Ht, Hs. simpl. eauto. }
  destruct Htry as (e & w1 & Htry).
  destruct (handle_failed_response _ _ _ _ _ _ Hwf Hen Hmiss Htry)
    as (w' & evs & Hh & Hs & Hcc & Hc & Hp & Hn).
  exists w', evs. repeat split; try assumption. now rewrite Hc.
Qed.

(** An empty player URL is falsy, so it is not checked: with an http(s)
    canonical URL the summary is stored and returned. *)
Lemma handle_try_empty_player_url url lang key s p w :
  fetchOutcome' url lang = Normal s ->
  hasHttpScheme (summary_url s) = true ->
  player s = Val p -> player_url p = Val "" ->
  fst (handle_try' url lang key w) = Normal (Some (BodySummary (rewritten' s))).
Proof.
  intros Hf Hu Hp Hpu. rewrite (handle_try_fetched _ _ _ _ _ Hf). cbv zeta.
  rewrite Hu, Hp, Hpu. reflexivity.
Qed.

(** C10.  On a miss, a fetched summary whose player descriptor is absent
    ([null] or [undefined], not an object) gets the 422 failure response,
    also when its canonical URL is http(s): reading [.url] off the absent
    descriptor throws inside the [try] block. *)
Theorem handle_player_absent request url lang s w :
  wellFormed request url lang ->
  urlPreviewEnabled meta = true ->
  previewCache w !! cacheKey url lang = None ->
  fetchOutcome' url lang = Normal s ->
  notNullish (player s) = false ->
  (exists w',
     handle' request w = (Normal (Some (BodyError failedError)), w')
     /\ statusCode (reply w') = 422
     /\ headers (reply w') !! "Cache-Control" = Some "max-age=86400, immutable"
     /\ previewCache w' = previewCache w)
  /\ (hasHttpScheme (summary_url s) = true ->
      handle_try' url lang (cacheKey url lang) (missEntry' url lang w)
      = (Throw (playerTypeError (player s)),
         gotPreview' url lang s (missEntry' url lang w))).
Proof.
  intros Hwf Hen Hmiss Hf Habs.
  assert (Htry : exists e,
    handle_try' url lang (cacheKey url lang) (missEntry' url lang w)
      = (Throw e, gotPreview' url lang s (missEntry' url lang w))
    /\ (hasHttpScheme (summary_url s) = true -> e = playerTypeError (player s))).
  { rewrite (handle_try_fetched _ _ _ _ _ Hf). cbv zeta.
    destruct (hasHttpScheme (summary_url s)); simpl.
    - destruct (player s) as [| |p]; [eauto | eauto | discriminate].
    - eexists. split; [reflexivity | discriminate]. }
  destruct Htry as (e & Htry & He). split.
  - destruct (handle_failed_response _ _ _ _ _ _ Hwf Hen Hmiss Htry)
      as (w' & evs & Hh & Hs & Hcc & Hc & _). eauto.
  - intros Hu. rewrite Htry, (He Hu). reflexivity.
Qed.

(** C4.  Whatever exception the [try] block throws (from the direct fetch,
    the proxy call or the validation), [handle] catches it and answers with
    status 422, [Cache-Control: max-age=86400, immutable] and the error
    envelope with code URL_PREVIEW_FAILED and its fixed identifier; body and
    reply are the same for every exception, so nothing of the exception
    reaches the response. *)
Theorem handle_failure_response request url lang e w w1 :
  wellFormed request url lang ->
  urlPreviewEnabled meta = true ->
  previewCache w !! cacheKey url lang = None ->
  handle_try' url lang (cacheKey url lang) (missEntry' url lang w)
    = (Throw e, w1) ->
  exists w',
    handle' request w = (Normal (Some (BodyError failedError)), w')
    /\ statusCode (reply w') = 422
    /\ headers (reply w') !! "Cache-Control" = Some "max-age=86400, immutable"
    /\ code failedError = "URL_PREVIEW_FAILED"
    /\ id failedError = "09d01cb5-53b9-4856-82e5-38a50c290a3b"
    /\ message failedError = "Failed to get preview"
    /\ (forall e',
          fst (handle_catch url e' w1) = Normal (Some (BodyError failedError))
          /\ reply (snd (handle_catch url e' w1)) = reply w').
Proof.
  intros Hwf Hen Hmiss Htry.
  rewrite (handle_failed_run _ _ _ _ _ _ Hwf Hen Hmiss Htry).
  rewrite handle_catch_run. eexists. split; [reflexivity|].
  simpl. split; [reflexivity|]. split; [apply lookup_insert_eq|].
  repeat split.
Qed.

(** A fetched summary that passes both scheme checks is rewritten, stored
    under the key and returned. *)
Lemma handle_stored_run request url lang s p w :
  wellFormed request url lang ->
  urlPreviewEnabled meta = true ->
  previewCache w !! cacheKey url lang = None ->
  fetchOutcome' url lang = Normal s ->
  hasHttpScheme (summary_url s) = true ->
  player s = Val p ->
  truthy (player_url p) = false
  \/ (exists pu, player_url p = Val pu /\ hasHttpScheme pu = true) ->
  handle' request w
  = (Normal (Some (BodySummary (rewritten' s))),
     setHeader "Cache-Control" "max-age=604800, immutable"
       (emit (EvCacheSet (cacheKey url lang) (rewritten' s))
          (setCache (cacheKey url lang) (rewritten' s)
             (gotPreview' url lang s (missEntry' url lang w))))).
Proof.
  intros Hwf Hen Hmiss Hf Hu Hp Hpu.
  rewrite (handle_miss_run _ _ _ _ Hwf Hen Hmiss). unfold tryCatch.
  rewrite (handle_try_fetched _ _ _ _ _ Hf). cbv zeta.
  rewrite Hu, Hp. simpl.
  destruct Hpu as [Hpu | (pu & Hpu & Hs)].
  - destruct (player_url p) as [| |pu]; try reflexivity.
    simpl in Hpu. rewrite Hpu. reflexivity.
  - rewrite Hpu, Hs, andb_false_r. reflexivity.
Qed.

(** After a miss that stored a summary, the same request is a hit: it gets
    the same body and makes no outbound call. *)
Lemma handle_second_call request url lang s p w body w1 :
  wellFormed request url lang ->
  urlPreviewEnabled meta = true ->
  previewCache w !! cacheKey url lang = None ->
  fetchOutcome' url lang = Normal s ->
  hasHttpScheme (summary_url s) = true ->
  player s = Val p ->
  truthy (player_url p) = false
  \/ (exists pu, player_url p = Val pu /\ hasHttpScheme pu = true) ->
  handle' request w = (body, w1) ->
  exists w2 evs,
    handle' request w1 = (body, w2)
    /\ performs w1 w2 evs /\ noneOf isFetch evs.
Proof.
  intros Hwf Hen Hmiss Hf Hu Hp Hpu.
  rewrite (handle_stored_run _ _ _ _ _ _ Hwf Hen Hmiss Hf Hu Hp Hpu).
  intros [= <- <-].
  rewrite (handle_hit_run request url lang (rewritten' s)); try assumption.
  - do 2 eexists. split; [reflexivity|]. unfold performs, noneOf. simpl.
    rewrite <- !app_assoc. split; [reflexivity | repeat constructor].
  - simpl. apply lookup_insert_eq.
Qed.

(** C9.  When the fetched summary is stored and returned, its [icon] and
    [thumbnail] are the results of [wrap] on the fetched ones, in the
    returned summary and in the cache entry alike; an absent field ([null] or
    [undefined]) is [null] there, and a field that does not start with
    [http://] or [https://] is unchanged. *)
Theorem handle_rewrites_images request url lang s p w :
  wellFormed request url lang ->
  urlPreviewEnabled meta = true ->
  previewCache w !! cacheKey url lang = None ->
  fetchOutcome' url lang = Normal s ->
  hasHttpScheme (summary_url s) = true ->
  player s = Val p ->
  truthy (player_url p) = false
  \/ (exists pu, player_url p = Val pu /\ hasHttpScheme pu = true) ->
  exists w' s',
    handle' request w = (Normal (Some (BodySummary s')), w')
    /\ previewCache w' !! cacheKey url lang = Some s'
    /\ icon s' = wrap' (icon s)
    /\ thumbnail s' = wrap' (thumbnail s)
    /\ (notNullish (icon s) = false -> icon s' = Null)
    /\ (notNullish (thumbnail s) = false -> thumbnail s' = Null)
    /\ (forall u, icon s = Val u -> matchHttp u = false -> icon s' = Val u)
    /\ (forall u, thumbnail s = Val u -> matchHttp u = false ->
                  thumbnail s' = Val u)
    /\ title s' = title s /\ description s' = description s
    /\ summary_url s' = summary_url s /\ player s' = player s.
Proof.
  intros Hwf Hen Hmiss Hf Hu Hp Hpu.
  rewrite (handle_stored_run _ _ _ _ _ _ Hwf Hen Hmiss Hf Hu Hp Hpu).
  do 2 eexists. split; [reflexivity|]. simpl.
  split; [apply lookup_insert_eq|].
  split; [reflexivity|]. split; [reflexivity|].
  split; [apply wrap_nullish|]. split; [apply wrap_nullish|].
  split; [intros u ->; apply wrap_non_http|].
  split; [intros u ->; apply wrap_non_http|].
  repeat split.
Qed.

(** The handler's first effect, once a request is past the shape checks and
    the feature flag, is the cache read at the key of [(url, lang)]. *)
Lemma handle_reads_key request url lang w :
  wellFormed request url lang ->
  urlPreviewEnabled meta = true ->
  exists body w' evs,
    handle' request w = (Normal body, w')
    /\ performs w w' (EvCacheGet (cacheKey url lang) :: evs).
Proof.
  intros Hwf Hen.
  destruct (previewCache w !! cacheKey url lang) as [c|] eqn:Hc.
  - destruct Hwf as (Hu & Ha & Hl). unfold handle.
    rewrite Hu. cbv zeta. rewrite Ha, Hl, Hen. run. rewrite Hc.
    do 3 eexists. split; [reflexivity|]. unfold performs. simpl.
    rewrite <- app_assoc. reflexivity.
  - rewrite (handle_miss_run _ _ _ _ Hwf Hen Hc). unfold tryCatch.
    destruct (fetchOutcome' url lang) as [s|e] eqn:Hf.
    + rewrite (handle_try_fetched _ _ _ _ _ Hf). cbv zeta.
      assert (Hthrow : forall e, exists body w' evs,
        handle_catch url e (gotPreview' url lang s (missEntry' url lang w))
          = (Normal body, w')
        /\ performs w w' (EvCacheGet (cacheKey url lang) :: evs)).
      { intros e. rewrite handle_catch_run. do 3 eexists.
        split; [reflexivity|]. unfold performs. simpl.
        rewrite <- !app_assoc. reflexivity. }
      assert (Hstored : exists body w' evs,
        (Normal (Some (BodySummary (rewritten' s))),
         setHeader "Cache-Control" "max-age=604800, immutable"
           (emit (EvCacheSet (cacheKey url lang) (rewritten' s))
              (setCache (cacheKey url lang) (rewritten' s)
                 (gotPreview' url lang s (missEntry' url lang w)))))
          = (Normal body, w')
        /\ performs w w' (EvCacheGet (cacheKey url lang) :: evs)).
      { do 3 eexists. split; [reflexivity|]. unfold performs. simpl.
        rewrite <- !app_assoc. reflexivity. }
      destruct (hasHttpScheme (summary_url s)); simpl; [|apply Hthrow].
      destruct (player s) as [| |p]; try apply Hthrow.
      destruct (player_url p) as [| |pu]; try apply Hstored.
      destruct (truthyStr pu && negb (hasHttpScheme pu));
        [apply Hthrow | apply Hstored].
    + rewrite (handle_try_fetch_throws _ _ _ _ _ Hf), handle_catch_run.
      do 3 eexists. split; [reflexivity|]. unfold performs. simpl.
      rewrite <- !app_assoc. reflexivity.
Qed.

(** C6 (amended).  With [lang] absent the handler reads the cache at the URL
    followed by [@undefined]; the fallback locale [ja-JP] stands in for the
    absent tag in the fetch only.  A request without [lang] and one with
    [lang=ja-JP] make the same outbound call but use different keys. *)
Theorem cacheKey_absent_lang request url w :
  wellFormed request url Undefined ->
  urlPreviewEnabled meta = true ->
  (exists body w' evs,
     handle' request w = (Normal body, w')
     /\ performs w w' (EvCacheGet (url +:+ "@undefined") :: evs))
  /\ cacheKey url Undefined = url +:+ "@undefined"
  /\ cacheKey url Undefined <> cacheKey url (Val "ja-JP")
  /\ fetchOutcome' url Undefined = fetchOutcome' url (Val "ja-JP")
  /\ fetchEvent' url Undefined = fetchEvent' url (Val "ja-JP").
Proof.
  intros Hwf Hen. split; [exact (handle_reads_key _ _ _ w Hwf Hen)|].
  split; [reflexivity|]. split; [|split; reflexivity].
  intros E. apply cacheKey_inj_lang in E. discriminate.
Qed.

End HandleFacts.

(** With [lang] absent the key ends in [@undefined], not in the fallback
    locale the fetch uses. *)
Lemma absent_lang_key_not_fallback :
  langOrDefault Undefined = "ja-JP"
  /\ cacheKey "https://example.com/" Undefined = "https://example.com/@undefined"
  /\ cacheKey "https://example.com/" Undefined
     <> cacheKey "https://example.com/" (Val (langOrDefault Undefined)).
Proof.
  split; [reflexivity|]. split; [reflexivity|]. discriminate.
Qed.

(** ** The theorems at the sample deployment *)

Lemma handle_malformed_request_witness :
  isString (query_url {| query_url := QAbsent; query_lang := QAbsent |}) = false
  /\ exists w',
       handle Sample.config Sample.meta Sample.generateImageUrl Sample.summaly
         Sample.getJson {| query_url := QAbsent; query_lang := QAbsent |}
         Sample.fresh = (Normal None, w')
       /\ statusCode (reply w') = 400
       /\ headers (reply w') = headers (reply Sample.fresh)
       /\ previewCache w' = previewCache Sample.fresh
       /\ performs Sample.fresh w' [].
Proof.
  split; [reflexivity|].
  apply (handle_malformed_request Sample.config Sample.meta
           Sample.generateImageUrl Sample.summaly Sample.getJson
           {| query_url := QAbsent; query_lang := QAbsent |} Sample.fresh).
  left. reflexivity.
Defined.

Lemma handle_feature_disabled_witness :
  urlPreviewEnabled Sample.metaOff = false
  /\ exists w',
       handle Sample.config Sample.metaOff Sample.generateImageUrl
         Sample.summaly Sample.getJson (Sample.request "https://example.com/")
         Sample.warm = (Normal (Some (BodyError disabledError)), w')
       /\ statusCode (reply w') = 403
       /\ code disabledError = "URL_PREVIEW_DISABLED"
       /\ id disabledError = "58b36e13-d2f5-0323-b0c6-76aa9dabefb8"
       /\ previewCache w' = previewCache Sample.warm
       /\ performs Sample.warm w' [].
Proof.
  split; [reflexivity|].
  apply (handle_feature_disabled Sample.config Sample.metaOff
           Sample.generateImageUrl Sample.summaly Sample.getJson
           (Sample.request "https://example.com/") "https://example.com/"
           Undefined Sample.warm).
  - repeat split.
  - reflexivity.
Defined.

Lemma handle_cache_hit_witness :
  previewCache Sample.warm !! cacheKey "https://example.com/" Undefined
    = Some Sample.page
  /\ exists w' evs,
       handle Sample.config Sample.meta Sample.generateImageUrl Sample.summaly
         Sample.getJson (Sample.request "https://example.com/") Sample.warm
       = (Normal (Some (BodySummary Sample.page)), w')
       /\ headers (reply w') !! "Cache-Control"
          = Some "max-age=604800, immutable"
       /\ statusCode (reply w') = statusCode (reply Sample.warm)
       /\ previewCache w' = previewCache Sample.warm
       /\ performs Sample.warm w' evs
       /\ noneOf isFetch evs /\ noneOf isCacheWrite evs.
Proof.
  assert (Hhit : previewCache Sample.warm
                   !! cacheKey "https://example.com/" Undefined
                 = Some Sample.page) by (vm_compute; reflexivity).
  split; [exact Hhit|].
  apply (handle_cache_hit Sample.config Sample.meta Sample.generateImageUrl
           Sample.summaly Sample.getJson
           (Sample.request "https://example.com/") "https://example.com/"
           Undefined Sample.page Sample.warm).
  - repeat split.
  - reflexivity.
  - exact Hhit.
Defined.

Lemma handle_unsupported_scheme_witness :
  (hasHttpScheme (summary_url Sample.scriptPage) = false
   /\ exists w' evs,
        handle Sample.config Sample.meta Sample.generateImageUrl
          Sample.summaly Sample.getJson
          (Sample.request "https://script.example/") Sample.fresh
        = (Normal (Some (BodyError failedError)), w')
        /\ statusCode (reply w') = 422
        /\ headers (reply w') !! "Cache-Control"
           = Some "max-age=86400, immutable"
        /\ previewCache w' = previewCache Sample.fresh
        /\ previewCache w' !! cacheKey "https://script.example/" Undefined
           = None
        /\ performs Sample.fresh w' evs /\ noneOf isCacheWrite evs)
  /\ exists w' evs,
       handle Sample.config Sample.meta Sample.generateImageUrl
         Sample.summaly Sample.getJson
         (Sample.request "https://embed.example/") Sample.fresh
       = (Normal (Some (BodyError failedError)), w')
       /\ statusCode (reply w') = 422
       /\ headers (reply w') !! "Cache-Control"
          = Some "max-age=86400, immutable"
       /\ previewCache w' = previewCache Sample.fresh
       /\ previewCache w' !! cacheKey "https://embed.example/" Undefined = None
       /\ performs Sample.fresh w' evs /\ noneOf isCacheWrite evs.
Proof.
  split; [split; [reflexivity|]|].
  - apply (handle_unsupported_scheme Sample.config Sample.meta
             Sample.generateImageUrl Sample.summaly Sample.getJson
             (Sample.request "https://script.example/")
             "https://script.example/" Undefined Sample.scriptPage
             Sample.fresh).
    + repeat split.
    + reflexivity.
    + vm_compute; reflexivity.
    + reflexivity.
    + left. reflexivity.
  - apply (handle_unsupported_scheme Sample.config Sample.meta
             Sample.generateImageUrl Sample.summaly Sample.getJson
             (Sample.request "https://embed.example/")
             "https://embed.example/" Undefined Sample.embedPage
             Sample.fresh).
    + repeat split.
    + reflexivity.
    + vm_compute; reflexivity.
    + reflexivity.
    + right. exists {| player_url := Val "javascript:alert(1)" |},
        "javascript:alert(1)". repeat split.
Defined.

Lemma handle_player_absent_witness :
  notNullish (player Sample.playerless) = false
  /\ hasHttpScheme (summary_url Sample.playerless) = true
  /\ exists w',
       handle Sample.config Sample.meta Sample.generateImageUrl
         Sample.summaly Sample.getJson
         (Sample.request "https://playerless.example/") Sample.fresh
       = (Normal (Some (BodyError failedError)), w')
       /\ statusCode (reply w') = 422
       /\ headers (reply w') !! "Cache-Control"
          = Some "max-age=86400, immutable"
       /\ previewCache w' = previewCache Sample.fresh.
Proof.
  split; [reflexivity|]. split; [reflexivity|].
  apply (handle_player_absent Sample.config Sample.meta
           Sample.generateImageUrl Sample.summaly Sample.getJson
           (Sample.request "https://playerless.example/")
           "https://playerless.example/" Undefined Sample.playerless
           Sample.fresh).
  - repeat split.
  - reflexivity.
  - vm_compute; reflexivity.
  - reflexivity.
  - reflexivity.
Defined.

Lemma handle_failure_response_witness :
  Sample.summaly "https://down.example/"
    (summalyOptions Sample.config Sample.meta Undefined) = Throw Sample.timeout
  /\ exists w',
       handle Sample.config Sample.meta Sample.generateImageUrl
         Sample.summaly Sample.getJson
         (Sample.request "https://down.example/") Sample.fresh
       = (Normal (Some (BodyError failedError)), w')
       /\ statusCode (reply w') = 422
       /\ headers (reply w') !! "Cache-Control"
          = Some "max-age=86400, immutable"
       /\ code failedError = "URL_PREVIEW_FAILED"
       /\ id failedError = "09d01cb5-53b9-4856-82e5-38a50c290a3b".
Proof.
  split; [reflexivity|].
  destruct (handle_failure_response Sample.config Sample.meta
              Sample.generateImageUrl Sample.summaly Sample.getJson
              (Sample.request "https://down.example/")
              "https://down.example/" Undefined Sample.timeout Sample.fresh
              (emit (fetchEvent Sample.config Sample.meta
                       "https://down.example/" Undefined)
                 (missEntry Sample.meta "https://down.example/" Undefined
                    Sample.fresh)))
    as (w' & Hh & Hs & Hc & Hcode & Hid & _).
  - repeat split.
  - reflexivity.
  - vm_compute; reflexivity.
  - reflexivity.
  - exists w'. auto.
Defined.

Lemma handle_rewrites_images_witness :
  exists w' s',
    handle Sample.config Sample.meta Sample.generateImageUrl Sample.summaly
      Sample.getJson (Sample.request "https://example.com/") Sample.fresh
    = (Normal (Some (BodySummary s')), w')
    /\ previewCache w' !! cacheKey "https://example.com/" Undefined = Some s'
    /\ icon s' = Val "/favicon.ico"
    /\ thumbnail s' = Null.
Proof.
  destruct (handle_rewrites_images Sample.config Sample.meta
              Sample.generateImageUrl Sample.summaly Sample.getJson
              (Sample.request "https://example.com/") "https://example.com/"
              Undefined Sample.page Sample.noPlayerUrl Sample.fresh)
    as (w' & s' & Hh & Hc & _ & _ & _ & Ht & Hi & _).
  - repeat split.
  - reflexivity.
  - vm_compute; reflexivity.
  - reflexivity.
  - reflexivity.
  - reflexivity.
  - left. reflexivity.
  - exists w', s'. split; [exact Hh|]. split; [exact Hc|].
    split; [apply (Hi "/favicon.ico"); reflexivity | apply Ht; reflexivity].
Defined.

Lemma cacheKey_absent_lang_witness :
  (exists body w' evs,
     handle Sample.config Sample.meta Sample.generateImageUrl Sample.summaly
       Sample.getJson (Sample.request "https://example.com/") Sample.fresh
     = (Normal body, w')
     /\ performs Sample.fresh w'
          (EvCacheGet "https://example.com/@undefined" :: evs))
  /\ cacheKey "https://example.com/" Undefined
     <> cacheKey "https://example.com/" (Val "ja-JP").
Proof.
  destruct (cacheKey_absent_lang Sample.config Sample.meta
              Sample.generateImageUrl Sample.summaly Sample.getJson
              (Sample.request "https://example.com/") "https://example.com/"
              Sample.fresh)
    as (Hread & _ & Hne & _).
  - repeat split.
  - reflexivity.
  - split; [exact Hread | exact Hne].
Defined.

Lemma wrap_spec_witness :
  wrap Sample.config Sample.generateImageUrl Null = Null
  /\ wrap Sample.config Sample.generateImageUrl (Val "relative/path")
     = Val "relative/path"
  /\ wrap Sample.config Sample.generateImageUrl
       (Val "https://example.com/a.png")
     = Val ("https://media.example/proxy/preview.webp?"
            +:+ "url=https%3A%2F%2Fexample.com%2Fa.png&preview=1").
Proof.
  destruct (wrap_spec Sample.config Sample.generateImageUrl)
    as (Hnull & _ & Hrel & Hhttp).
  split; [exact Hnull|]. split; [apply Hrel; reflexivity|].
  destruct (Hhttp "https://example.com/a.png") as (Hw & _ & _);
    [reflexivity | reflexivity | exact Hw].
Defined.

(** ** Every run of the handler *)

Section HandlePaths.

Variable config : Config.
Variable meta : MiMeta.
Variable generateImageUrl : ImgproxyRequest -> string.
Variable summaly : string -> SummalyOptions -> Completion SummalyResult.
Variable getJson : string -> Completion SummalyResult.

Local Abbreviation handle' :=
  (handle config meta generateImageUrl summaly getJson).
Local Abbreviation handle_try' :=
  (handle_try config meta generateImageUrl summaly getJson).
Local Abbreviation fetchOutcome' := (fetchOutcome config meta summaly getJson).
Local Abbreviation fetchEvent' := (fetchEvent config meta).
Local Abbreviation missEntry' := (missEntry meta).
Local Abbreviation rewritten' := (rewritten config generateImageUrl).
Local Abbreviation gotPreview' := (gotPreview config meta).
Local Abbreviation stored' := (stored config meta generateImageUrl).
Local Abbreviation Path' :=
  (Path config meta generateImageUrl summaly getJson).

(** The [try] block after a resolved fetch, by the outcome of the checks. *)
Lemma handle_try_checked url lang key s w :
  fetchOutcome' url lang = Normal s ->
  handle_try' url lang key w
  = match schemeCheck s with
    | Some e => (Throw e, gotPreview' url lang s w)
    | None =>
        (Normal (Some (BodySummary (rewritten' s))),
         setHeader "Cache-Control" "max-age=604800, immutable"
           (emit (EvCacheSet key (rewritten' s))
              (setCache key (rewritten' s) (gotPreview' url lang s w))))
    end.
Proof.
  intros Hf.
  rewrite (handle_try_fetched config meta generateImageUrl summaly getJson
             _ _ _ _ _ Hf).
  cbv zeta. unfold schemeCheck.
  destruct (hasHttpScheme (summary_url s)); simpl; [|reflexivity].
  destruct (player s) as [| |p]; try reflexivity.
  destruct (player_url p) as [| |pu]; try reflexivity.
  destruct (truthyStr pu && negb (hasHttpScheme pu)); reflexivity.
Qed.

(** A request is either malformed or well-formed for one [url] and [lang]. *)
Lemma request_shape request :
  (isString (query_url request) = false
   \/ isArray (query_lang request) = true)
  \/ exists url, wellFormed request url (paramValue (query_lang request)).
Proof.
  destruct (query_url request) as [|url|l] eqn:Hu; auto.
  destruct (isArray (query_lang request)) eqn:Ha; auto.
  right. exists url. repeat split; assumption.
Qed.

Lemma handle_malformed_run request w :
  isString (query_url request) = false
  \/ isArray (query_lang request) = true ->
  handle' request w = (Normal None, setCode 400 w).
Proof.
  intros H. unfold handle.
  destruct (query_url request) as [|url|l]; try reflexivity.
  destruct H as [H|H]; [discriminate|]. cbv zeta. rewrite H. reflexivity.
Qed.

(** Every run of [handle] follows one of the six paths. *)
Lemma handle_path request w : Path' request w (handle' request w).
Proof.
  destruct (request_shape request) as [Hbad | [url Hwf]].
  - rewrite (handle_malformed_run request w Hbad).
    now constructor.
  - set (lang := paramValue (query_lang request)) in *.
    destruct (urlPreviewEnabled meta) eqn:Hen.
    + destruct (previewCache w !! cacheKey url lang) as [c|] eqn:Hc.
      * rewrite (handle_hit_run config meta generateImageUrl summaly getJson
                   _ _ _ _ _ Hwf Hen Hc).
        now apply (PathHit _ _ _ _ _ _ _ url lang).
      * rewrite (handle_miss_run config meta generateImageUrl summaly getJson
                   _ _ _ _ Hwf Hen Hc).
        unfold tryCatch.
        destruct (fetchOutcome' url lang) as [s|e] eqn:Hf.
        -- rewrite (handle_try_checked _ _ _ _ _ Hf).
           destruct (schemeCheck s) as [e|] eqn:Hs.
           ++ rewrite handle_catch_run.
              now apply (PathRejected _ _ _ _ _ _ _ url lang s e).
           ++ now apply (PathStored _ _ _ _ _ _ _ url lang s).
        -- rewrite (handle_try_fetch_throws config meta generateImageUrl
                      summaly getJson _ _ _ _ _ Hf), handle_catch_run.
           now apply (PathFetchFailed _ _ _ _ _ _ _ url lang e).
    + destruct Hwf as (Hu & Ha & Hl).
      replace (handle' request w)
        with (Normal (Some (BodyError disabledError)), setCode 403 w).
      * apply (PathDisabled _ _ _ _ _ _ _ url lang); [repeat split|]; auto.
      * unfold handle. rewrite Hu. cbv zeta. rewrite Ha, Hen. reflexivity.
Qed.

(** The traces of the worlds the paths end in. *)
Lemma trace_served key w :
  trace (served key w)
  = trace w ++ [EvCacheGet key;
                EvLog Info ("Returning cache preview of " +:+ key)].
Proof. simpl. now rewrite <- app_assoc. Qed.


Lemma trace_fetch_failed url lang e w :
  exists m1 m2,
    trace (failed url e (emit (fetchEvent' url lang) (missEntry' url lang w)))
    = trace w ++ [EvCacheGet (cacheKey url lang); EvLog Info m1;
                  fetchEvent' url lang; EvLog Warn m2].
Proof.
  do 2 eexists. unfold failed, missEntry. simpl.
  now rewrite <- !app_assoc.
Qed.

Lemma trace_rejected url lang s e w :
  exists m1 m2 m3,
    trace (failed url e (gotPreview' url lang s (missEntry' url lang w)))
    = trace w ++ [EvCacheGet (cacheKey url lang); EvLog Info m1;
                  fetchEvent' url lang; EvLog Succ m2; EvLog Warn m3].
Proof.
  do 3 eexists. unfold failed, gotPreview, missEntry. simpl.
  now rewrite <- !app_assoc.
Qed.

Lemma trace_stored url lang s w :
  exists m1 m2,
    trace (stored' url lang s w)
    = trace w ++ [EvCacheGet (cacheKey url lang); EvLog Info m1;
                  fetchEvent' url lang; EvLog Succ m2;
                  EvCacheSet (cacheKey url lang) (rewritten' s)].
Proof.
  do 2 eexists. unfold stored, gotPreview, missEntry. simpl.
  now rewrite <- !app_assoc.
Qed.







(** A request is well-formed for one URL and one language tag only. *)
Lemma wellFormed_unique request u1 l1 u2 l2 :
  wellFormed request u1 l1 -> wellFormed request u2 l2 ->
  u1 = u2 /\ l1 = l2.
Proof.
  intros (Hu1 & _ & Hl1) (Hu2 & _ & Hl2). split; congruence.
Qed.

Lemma wellFormed_not_malformed request url lang :
  wellFormed request url lang ->
  ~ (isString (query_url request) = false
     \/ isArray (query_lang request) = true).
Proof.
  intros (Hu & Ha & _) [H|H]; [rewrite Hu in H | rewrite Ha in H];
    discriminate.
Qed.

(** X4.  A summary [handle] returns is the entry the cache holds under the
    request's key when the call ends. *)
Theorem handle_returns_cached request s w w1 :
  handle' request w = (Normal (Some (BodySummary s)), w1) ->
  exists url lang,
    wellFormed request url lang
    /\ urlPreviewEnabled meta = true
    /\ previewCache w1 !! cacheKey url lang = Some s.
Proof.
  intros H. pose proof (handle_path request w) as P. rewrite H in P.
  inversion P as [Hbad | u l Hwf Hoff | u l c Hwf Hen Hc
                 | u l e Hwf Hen Hc Hf | u l s0 e Hwf Hen Hc Hf Hs
                 | u l s0 Hwf Hen Hc Hf Hs]; subst.
  - exists u, l. auto.
  - exists u, l. split; [assumption|]. split; [assumption|].
    simpl. apply lookup_insert_eq.
Qed.

(** Whoever asks with a key the cache holds, with the feature on, is
    served. *)
Lemma handle_hit_served request url lang c w :
  wellFormed request url lang ->
  urlPreviewEnabled meta = true ->
  previewCache w !! cacheKey url lang = Some c ->
  exists w2 evs,
    handle' request w = (Normal (Some (BodySummary c)), w2)
    /\ performs w w2 evs /\ noneOf isFetch evs /\ noneOf isCacheWrite evs
    /\ previewCache w2 = previewCache w.
Proof.
  intros Hwf Hen Hc.
  rewrite (handle_hit_run config meta generateImageUrl summaly getJson
             _ _ _ _ _ Hwf Hen Hc).
  do 2 eexists. split; [reflexivity|].
  split; [apply trace_served|]. unfold noneOf.
  split; [|split]; [repeat constructor | repeat constructor | reflexivity].
Qed.

(** X5.  Asking again gives the same summary: after a call that returned a
    summary, the same request returns it again, with no outbound call and no
    cache write. *)
Theorem handle_repeat request s w w1 :
  handle' request w = (Normal (Some (BodySummary s)), w1) ->
  exists w2 evs,
    handle' request w1 = (Normal (Some (BodySummary s)), w2)
    /\ performs w1 w2 evs /\ noneOf isFetch evs /\ noneOf isCacheWrite evs.
Proof.
  intros H. pose proof (handle_path request w) as P. rewrite H in P.
  assert (Hc : exists url lang,
    wellFormed request url lang /\ urlPreviewEnabled meta = true
    /\ previewCache w1 !! cacheKey url lang = Some s).
  { inversion P as [Hbad | u l Hwf Hoff | u l c Hwf Hen Hc
                   | u l e Hwf Hen Hc Hf | u l s0 e Hwf Hen Hc Hf Hs
                   | u l s0 Hwf Hen Hc Hf Hs]; subst; exists u, l.
    - auto.
    - split; [assumption|]. split; [assumption|].
      simpl. apply lookup_insert_eq. }
  destruct Hc as (url & lang & Hwf & Hen & Hc).
  destruct (handle_hit_served _ _ _ _ _ Hwf Hen Hc)
    as (w2 & evs & Hh & Hp & Hnf & Hnw & _).
  eauto 8.
Qed.

(** X6.  The key decides, not the request: after a call that returned a
    summary, any request that computes the same cache key gets that summary,
    with no outbound call, also when its URL differs. *)
Theorem handle_shared_key request1 url1 lang1 request2 url2 lang2 s w w1 :
  wellFormed request1 url1 lang1 ->
  wellFormed request2 url2 lang2 ->
  cacheKey url1 lang1 = cacheKey url2 lang2 ->
  handle' request1 w = (Normal (Some (BodySummary s)), w1) ->
  exists w2 evs,
    handle' request2 w1 = (Normal (Some (BodySummary s)), w2)
    /\ performs w1 w2 evs /\ noneOf isFetch evs.
Proof.
  intros Hwf1 Hwf2 Hk H.
  pose proof (handle_path request1 w) as P. rewrite H in P.
  assert (Hc : urlPreviewEnabled meta = true
               /\ previewCache w1 !! cacheKey url2 lang2 = Some s).
  { rewrite <- Hk.
    inversion P as [Hbad | u l Hwf Hoff | u l c Hwf Hen Hc
                   | u l e Hwf Hen Hc Hf | u l s0 e Hwf Hen Hc Hf Hs
                   | u l s0 Hwf Hen Hc Hf Hs]; subst;
      destruct (wellFormed_unique _ _ _ _ _ Hwf Hwf1) as [-> ->].
    - auto.
    - split; [assumption|]. simpl. apply lookup_insert_eq. }
  destruct Hc as (Hen & Hc).
  destruct (handle_hit_served _ _ _ _ _ Hwf2 Hen Hc)
    as (w2 & evs & Hh & Hp & Hnf & _).
  eauto 6.
Qed.

(** A summary that passes [schemeCheck] is well-schemed, and stays so when
    rewritten. *)
Lemma schemeCheck_None s :
  schemeCheck s = None -> wellSchemed (rewritten' s).
Proof.
  unfold schemeCheck, wellSchemed. simpl.
  destruct (hasHttpScheme (summary_url s)); simpl; [|discriminate].
  destruct (player s) as [| |p]; try discriminate.
  intros H. split; [reflexivity|]. exists p. split; [reflexivity|].
  destruct (player_url p) as [| |pu]; auto.
  simpl. destruct (truthyStr pu); auto. simpl in H.
  destruct (hasHttpScheme pu) eqn:E; [eauto | discriminate].
Qed.

(** X7.  [handle] keeps the cache well-schemed: if every cached summary has
    an http(s) canonical URL and a player whose URL is absent, empty or
    http(s), the same holds after any call, whatever the fetch returns. *)
Theorem handle_keeps_cache_well_schemed request w :
  map_Forall (fun _ v => wellSchemed v) (previewCache w) ->
  map_Forall (fun _ v => wellSchemed v)
    (previewCache (snd (handle' request w))).
Proof.
  intros Hinv. pose proof (handle_path request w) as P.
  destruct P as [Hbad | u l Hwf Hoff | u l c Hwf Hen Hc
                | u l e Hwf Hen Hc Hf | u l s e Hwf Hen Hc Hf Hs
                | u l s Hwf Hen Hc Hf Hs]; simpl; try exact Hinv.
  apply map_Forall_insert_2; [|exact Hinv].
  now apply schemeCheck_None.
Qed.

(** X8.  A failure is not remembered: after a call that answered with the
    failure envelope the cache is as it was before, and the same request
    calls out again. *)
Theorem handle_failure_not_cached request w w1 :
  handle' request w = (Normal (Some (BodyError failedError)), w1) ->
  previewCache w1 = previewCache w
  /\ exists url lang evs,
       wellFormed request url lang
       /\ performs w1 (snd (handle' request w1)) evs
       /\ In (fetchEvent' url lang) evs.
Proof.
  intros H. pose proof (handle_path request w) as P. rewrite H in P.
  assert (Hm : previewCache w1 = previewCache w
               /\ exists url lang, wellFormed request url lang
                    /\ urlPreviewEnabled meta = true
                    /\ previewCache w !! cacheKey url lang = None).
  { inversion P as [Hbad | u l Hwf Hoff | u l c Hwf Hen Hc
                   | u l e Hwf Hen Hc Hf | u l s0 e Hwf Hen Hc Hf Hs
                   | u l s0 Hwf Hen Hc Hf Hs]; subst;
      (split; [reflexivity | eauto]). }
  destruct Hm as (Hsame & url & lang & Hwf & Hen & Hmiss).
  split; [exact Hsame|]. exists url, lang.
  rewrite <- Hsame in Hmiss.
  pose proof (handle_path request w1) as P1. unfold performs.
  destruct P1 as [Hbad | u l Hwf' Hoff | u l c Hwf' Hen' Hc
                 | u l e Hwf' Hen' Hc Hf | u l s e Hwf' Hen' Hc Hf Hs
                 | u l s Hwf' Hen' Hc Hf Hs]; cbn [snd].
  - destruct (wellFormed_not_malformed _ _ _ Hwf Hbad).
  - congruence.
  - destruct (wellFormed_unique _ _ _ _ _ Hwf Hwf') as [-> ->]. congruence.
  - destruct (wellFormed_unique _ _ _ _ _ Hwf Hwf') as [-> ->].
    destruct (trace_fetch_failed u l e w1) as (m1 & m2 & ->).
    eexists. split; [assumption|]. split; [reflexivity|]. simpl. auto.
  - destruct (wellFormed_unique _ _ _ _ _ Hwf Hwf') as [-> ->].
    destruct (trace_rejected u l s e w1) as (m1 & m2 & m3 & ->).
    eexists. split; [assumption|]. split; [reflexivity|]. simpl. auto.
  - destruct (wellFormed_unique _ _ _ _ _ Hwf Hwf') as [-> ->].
    destruct (trace_stored u l s w1) as (m1 & m2 & ->).
    eexists. split; [assumption|]. split; [reflexivity|]. simpl. auto.
Qed.

(** X9.  The one outbound call [handle] can make is for the request's own
    URL and language by the configured strategy: [getJson] on the proxy
    address when a summary proxy is set, [summaly] on the URL otherwise;
    never the other one. *)
Theorem handle_fetch_strategy request w :
  exists evs,
    performs w (snd (handle' request w)) evs
    /\ forall ev, In ev evs -> isFetch ev = true ->
         exists url lang,
           wellFormed request url lang
           /\ ev = if truthyOpt (urlPreviewSummaryProxyUrl meta)
                   then EvGetJson (proxyTarget url meta lang)
                   else EvSummaly url (summalyOptions config meta lang).
Proof.
  pose proof (handle_path request w) as P. unfold performs.
  destruct P as [Hbad | u l Hwf Hoff | u l c Hwf Hen Hc
                | u l e Hwf Hen Hc Hf | u l s e Hwf Hen Hc Hf Hs
                | u l s Hwf Hen Hc Hf Hs]; cbn [snd].
  - exists []. simpl. rewrite app_nil_r. split; [reflexivity|]. now intros.
  - exists []. simpl. rewrite app_nil_r. split; [reflexivity|]. now intros.
  - eexists. split; [apply trace_served|].
    intros ev [<-|[<-|[]]]; discriminate.
  - destruct (trace_fetch_failed u l e w) as (m1 & m2 & ->).
    eexists. split; [reflexivity|].
    intros ev [<-|[<-|[<-|[<-|[]]]]]; try discriminate.
    intros _. exists u, l. split; [assumption | reflexivity].
  - destruct (trace_rejected u l s e w) as (m1 & m2 & m3 & ->).
    eexists. split; [reflexivity|].
    intros ev [<-|[<-|[<-|[<-|[<-|[]]]]]]; try discriminate.
    intros _. exists u, l. split; [assumption | reflexivity].
  - destruct (trace_stored u l s w) as (m1 & m2 & ->).
    eexists. split; [reflexivity|].
    intros ev [<-|[<-|[<-|[<-|[<-|[]]]]]]; try discriminate.
    intros _. exists u, l. split; [assumption | reflexivity].
Qed.


(** X11.  Languages do not mix: a call for [(url, lang)] leaves untouched the
    cache entry of the same URL under any language tag that renders
    differently. *)
Theorem handle_language_isolation request url lang lang2 w :
  wellFormed request url lang ->
  template lang <> template lang2 ->
  previewCache (snd (handle' request w)) !! cacheKey url lang2
  = previewCache w !! cacheKey url lang2.
Proof.
  intros Hwf Hne.
  assert (Hk : cacheKey url lang <> cacheKey url lang2).
  { intros E. apply Hne. exact (cacheKey_inj_lang _ _ _ E). }
  pose proof (handle_path request w) as P.
  destruct P as [Hbad | u l Hwf' Hoff | u l c Hwf' Hen Hc
                | u l e Hwf' Hen Hc Hf | u l s e Hwf' Hen Hc Hf Hs
                | u l s Hwf' Hen Hc Hf Hs]; simpl; try reflexivity.
  destruct (wellFormed_unique _ _ _ _ _ Hwf Hwf') as [-> ->].
  now apply lookup_insert_ne.
Qed.

(** X15.  A direct fetch never follows redirects and keeps to the
    administrator's limits: every [summaly] call [handle] makes has
    [followRedirects] off, the request's language or [ja-JP], the timeout,
    size limit and content-length flag of the instance settings, and the
    outbound agents exactly when [config.proxy] is set. *)
Theorem handle_direct_fetch_options request w :
  exists evs,
    performs w (snd (handle' request w)) evs
    /\ forall target opts, In (EvSummaly target opts) evs ->
         followRedirects opts = false
         /\ (exists url l, wellFormed request url l
               /\ target = url /\ lang opts = langOrDefault l)
         /\ userAgent opts = urlPreviewUserAgent meta
         /\ operationTimeout opts = urlPreviewTimeout meta
         /\ contentLengthLimit opts = urlPreviewMaximumContentLength meta
         /\ contentLengthRequired opts = urlPreviewRequireContentLength meta
         /\ (is_Some (agent opts) <-> truthyOpt (proxy config) = true).
Proof.
  assert (Hopts : forall url l target opts,
    wellFormed request url l ->
    fetchEvent' url l = EvSummaly target opts ->
    followRedirects opts = false
    /\ (exists url l, wellFormed request url l
          /\ target = url /\ lang opts = langOrDefault l)
    /\ userAgent opts = urlPreviewUserAgent meta
    /\ operationTimeout opts = urlPreviewTimeout meta
    /\ contentLengthLimit opts = urlPreviewMaximumContentLength meta
    /\ contentLengthRequired opts = urlPreviewRequireContentLength meta
    /\ (is_Some (agent opts) <-> truthyOpt (proxy config) = true)).
  { intros url l target opts Hwf. unfold fetchEvent.
    destruct (truthyOpt (urlPreviewSummaryProxyUrl meta)); [discriminate|].
    intros [= <- <-]. simpl. split; [reflexivity|].
    split; [eauto|]. repeat (split; [reflexivity|]).
    destruct (truthyOpt (proxy config)); split; intros H;
      try reflexivity; try discriminate; eauto.
    destruct H as [? H]. discriminate. }
  pose proof (handle_path request w) as P. unfold performs.
  destruct P as [Hbad | u l Hwf Hoff | u l c Hwf Hen Hc
                | u l e Hwf Hen Hc Hf | u l s e Hwf Hen Hc Hf Hs
                | u l s Hwf Hen Hc Hf Hs]; cbn [snd].
  - exists []. simpl. rewrite app_nil_r. split; [reflexivity|]. now intros.
  - exists []. simpl. rewrite app_nil_r. split; [reflexivity|]. now intros.
  - eexists. split; [apply trace_served|].
    intros target opts [H|[H|[]]]; discriminate.
  - destruct (trace_fetch_failed u l e w) as (m1 & m2 & ->).
    eexists. split; [reflexivity|].
    intros target opts [H|[H|[H|[H|[]]]]]; try discriminate.
    exact (Hopts _ _ _ _ Hwf H).
  - destruct (trace_rejected u l s e w) as (m1 & m2 & m3 & ->).
    eexists. split; [reflexivity|].
    intros target opts [H|[H|[H|[H|[H|[]]]]]]; try discriminate.
    exact (Hopts _ _ _ _ Hwf H).
  - destruct (trace_stored u l s w) as (m1 & m2 & ->).
    eexists. split; [reflexivity|].
    intros target opts [H|[H|[H|[H|[H|[]]]]]]; try discriminate.
    exact (Hopts _ _ _ _ Hwf H).
Qed.

End HandlePaths.

(** ** More on [wrap] and on the proxy address *)

Lemma hexDigit_unreserved (a : ascii) :
  isUnreserved (hexDigit (N_of_ascii a / 16)) = true
  /\ isUnreserved (hexDigit (N_of_ascii a mod 16)) = true.
Proof. destruct a as [[] [] [] [] [] [] [] []]; split; reflexivity. Qed.

Lemma eqb_reserved (c a : ascii) :
  isUnreserved c = false -> isUnreserved a = true -> Ascii.eqb c a = false.
Proof.
  intros Hc Ha. destruct (Ascii.eqb c a) eqn:E; [|reflexivity].
  apply Ascii.eqb_eq in E. congruence.
Qed.

(** A reserved character other than [%] does not occur in a
    percent-encoded text. *)
Lemma encode_occurrences (c : ascii) (s : string) :
  isUnreserved c = false -> c <> "%"%char ->
  occurrences c (encodeURIComponent s) = O.
Proof.
  intros Hc Hp. induction s as [|a s IH]; [reflexivity|].
  cbn [encodeURIComponent]. destruct (isUnreserved a) eqn:Ha.
  - cbn [occurrences]. now rewrite (eqb_reserved c a Hc Ha).
  - destruct (hexDigit_unreserved a) as [Hh Hl].
    cbv zeta. cbn [occurrences].
    rewrite (eqb_reserved c _ Hc Hh), (eqb_reserved c _ Hc Hl).
    destruct (Ascii.eqb c "%") eqn:E; [|exact IH].
    apply Ascii.eqb_eq in E. contradiction.
Qed.

Lemma occurrences_app (c : ascii) (a b : string) :
  occurrences c (a +:+ b) = (occurrences c a + occurrences c b)%nat.
Proof.
  induction a as [|x a IH]; [reflexivity|].
  rewrite append_cons. simpl. rewrite IH. now destruct (Ascii.eqb c x).
Qed.

Lemma occurrences_contains (c : ascii) (s : string) :
  occurrences c s = O -> contains c s = false.
Proof.
  induction s as [|x s IH]; [reflexivity|]. simpl.
  destruct (Ascii.eqb c x); [discriminate | exact IH].
Qed.

Lemma encode_inj (a b : string) :
  encodeURIComponent a = encodeURIComponent b -> a = b.
Proof.
  intros E. pose proof (percentDecode_encode a) as Ha.
  rewrite E, percentDecode_encode in Ha. congruence.
Qed.

Lemma prefix_append (p a b : string) :
  String.prefix p a = true -> String.prefix p (a +:+ b) = true.
Proof.
  revert a. induction p as [|x p IH]; intros [|y a]; simpl;
    try discriminate.
  - now destruct b.
  - reflexivity.
  - destruct (ascii_dec x y); [apply IH | discriminate].
Qed.

Lemma matchHttp_append (a b : string) :
  matchHttp a = true -> matchHttp (a +:+ b) = true.
Proof.
  unfold matchHttp. intros H. apply orb_true_iff in H. apply orb_true_iff.
  destruct H as [H|H]; [left | right]; now apply prefix_append.
Qed.

Section WrapMore.

Variable config : Config.
Variable generateImageUrl : ImgproxyRequest -> string.

Local Abbreviation wrap' := (wrap config generateImageUrl).

(** X12.  [wrap] neither drops nor invents a value: its result is [null]
    exactly when its argument is [null] or [undefined], and it is never
    [undefined]. *)
Theorem wrap_keeps_presence (v : Nullable string) :
  notNullish (wrap' v) = notNullish v /\ wrap' v <> Undefined.
Proof.
  unfold wrap.
  destruct (truthyOpt (imgproxyURL config)), v as [| |u]; simpl;
    try (split; [reflexivity | discriminate]);
    destruct (matchHttp u); split; try reflexivity; discriminate.
Qed.

(** X13.  With no image proxy and an http(s) media proxy, [wrap] tells
    images apart: two strings with the same result are the same string. *)
Theorem wrap_injective (u1 u2 : string) :
  truthyOpt (imgproxyURL config) = false ->
  matchHttp (mediaProxy config) = true ->
  wrap' (Val u1) = wrap' (Val u2) ->
  u1 = u2.
Proof.
  intros Hc Hm. unfold wrap. rewrite Hc.
  assert (Hout : forall u,
    matchHttp (mediaProxy config +:+ "/preview.webp?" +:+
                 query [("url", QvString u); ("preview", QvString "1")])
    = true) by (intros u; now apply matchHttp_append).
  destruct (matchHttp u1) eqn:H1, (matchHttp u2) eqn:H2; intros [= E].
  - apply append_inj_r in E. apply append_inj_r in E.
    rewrite !query_url_preview in E. apply append_inj_r in E.
    apply (split_last_unique "&" _ _ "preview=1" "preview=1") in E;
      try reflexivity.
    destruct E as [E _]. now apply encode_inj.
  - rewrite <- E, Hout in H2. discriminate.
  - rewrite E, Hout in H1. discriminate.
  - exact E.
Qed.

End WrapMore.

(** X14.  The address asked of the summary proxy is the proxy URL, [?] and a
    query string whose shape the client cannot change: whatever [url] and
    [lang] contain, it has four [&] (five with a user agent set), one [=]
    more than that, and no [#]. *)
Theorem proxy_query_shape (url : string) (meta : MiMeta)
    (lang : Nullable string) :
  let n := match urlPreviewUserAgent meta with Some _ => 5 | None => 4 end%nat
  in
  proxyTarget url meta lang
  = match urlPreviewSummaryProxyUrl meta with Some p => p | None => "null" end
    +:+ "?" +:+ proxyQueryStr url meta lang
  /\ occurrences "&" (proxyQueryStr url meta lang) = n
  /\ occurrences "=" (proxyQueryStr url meta lang) = S n
  /\ occurrences "#" (proxyQueryStr url meta lang) = O.
Proof.
  cbv zeta. split; [reflexivity|].
  unfold proxyQueryStr, query.
  destruct (urlPreviewUserAgent meta) as [ua|]; cbn [from_option omap
    list_omap queryValueToString joinWith];
    destruct (urlPreviewRequireContentLength meta);
    rewrite ?occurrences_app, ?encode_occurrences by (reflexivity || easy);
    repeat split; reflexivity.
Qed.

(** ** The further theorems at the sample deployment *)

Lemma handle_returns_cached_witness :
  exists url lang,
    wellFormed (Sample.request "https://example.com/") url lang
    /\ urlPreviewEnabled Sample.meta = true
    /\ previewCache
         (stored Sample.config Sample.meta Sample.generateImageUrl
            "https://example.com/" Undefined Sample.page Sample.fresh)
         !! cacheKey url lang
       = Some (rewritten Sample.config Sample.generateImageUrl Sample.page).
Proof.
  apply (handle_returns_cached Sample.config Sample.meta
           Sample.generateImageUrl Sample.summaly Sample.getJson
           (Sample.request "https://example.com/")
           (rewritten Sample.config Sample.generateImageUrl Sample.page)
           Sample.fresh).
  vm_compute. reflexivity.
Defined.

Lemma handle_repeat_witness :
  exists w2 evs,
    handle Sample.config Sample.meta Sample.generateImageUrl Sample.summaly
      Sample.getJson (Sample.request "https://example.com/")
      (stored Sample.config Sample.meta Sample.generateImageUrl
         "https://example.com/" Undefined Sample.page Sample.fresh)
    = (Normal (Some (BodySummary
         (rewritten Sample.config Sample.generateImageUrl Sample.page))), w2)
    /\ performs
         (stored Sample.config Sample.meta Sample.generateImageUrl
            "https://example.com/" Undefined Sample.page Sample.fresh)
         w2 evs
    /\ noneOf isFetch evs /\ noneOf isCacheWrite evs.
Proof.
  apply (handle_repeat Sample.config Sample.meta Sample.generateImageUrl
           Sample.summaly Sample.getJson
           (Sample.request "https://example.com/")
           (rewritten Sample.config Sample.generateImageUrl Sample.page)
           Sample.fresh).
  vm_compute. reflexivity.
Defined.

Lemma handle_shared_key_witness :
  "https://example.com/@a" <> "https://example.com/"
  /\ exists w2 evs,
       handle Sample.config Sample.meta Sample.generateImageUrl
         Mirror.summaly Sample.getJson
         (Mirror.request "https://example.com/" "a@b")
         (stored Sample.config Sample.meta Sample.generateImageUrl
            "https://example.com/@a" (Val "b") Sample.page Sample.fresh)
       = (Normal (Some (BodySummary
            (rewritten Sample.config Sample.generateImageUrl Sample.page))),
          w2)
       /\ performs
            (stored Sample.config Sample.meta Sample.generateImageUrl
               "https://example.com/@a" (Val "b") Sample.page Sample.fresh)
            w2 evs
       /\ noneOf isFetch evs.
Proof.
  split; [discriminate|].
  apply (handle_shared_key Sample.config Sample.meta Sample.generateImageUrl
           Mirror.summaly Sample.getJson
           (Mirror.request "https://example.com/@a" "b")
           "https://example.com/@a" (Val "b")
           (Mirror.request "https://example.com/" "a@b")
           "https://example.com/" (Val "a@b")
           (rewritten Sample.config Sample.generateImageUrl Sample.page)
           Sample.fresh).
  - repeat split.
  - repeat split.
  - reflexivity.
  - vm_compute. reflexivity.
Defined.

Lemma handle_keeps_cache_well_schemed_witness :
  map_Forall (fun _ v => wellSchemed v)
    (previewCache
       (snd (handle Sample.config Sample.meta Sample.generateImageUrl
               Sample.summaly Sample.getJson
               (Sample.request "https://script.example/") Sample.warm))).
Proof.
  apply (handle_keeps_cache_well_schemed Sample.config Sample.meta
           Sample.generateImageUrl Sample.summaly Sample.getJson
           (Sample.request "https://script.example/") Sample.warm).
  apply map_Forall_singleton. split; [reflexivity|].
  exists Sample.noPlayerUrl. split; [reflexivity|]. left. reflexivity.
Defined.

Lemma handle_failure_not_cached_witness :
  previewCache
    (failed "https://down.example/" Sample.timeout
       (emit (fetchEvent Sample.config Sample.meta "https://down.example/"
                Undefined)
          (missEntry Sample.meta "https://down.example/" Undefined
             Sample.fresh)))
  = previewCache Sample.fresh.
Proof.
  apply (handle_failure_not_cached Sample.config Sample.meta
           Sample.generateImageUrl Sample.summaly Sample.getJson
           (Sample.request "https://down.example/") Sample.fresh).
  vm_compute. reflexivity.
Defined.


Lemma handle_language_isolation_witness :
  previewCache
    (snd (handle Sample.config Sample.meta Sample.generateImageUrl
            Sample.summaly Sample.getJson
            (Mirror.request "https://example.com/" "en-US") Sample.warm))
    !! cacheKey "https://example.com/" Undefined
  = Some Sample.page.
Proof.
  rewrite (handle_language_isolation Sample.config Sample.meta
             Sample.generateImageUrl Sample.summaly Sample.getJson
             (Mirror.request "https://example.com/" "en-US")
             "https://example.com/" (Val "en-US") Undefined Sample.warm).
  - vm_compute. reflexivity.
  - repeat split.
  - discriminate.
Defined.

Lemma wrap_injective_witness :
  wrap Sample.config Sample.generateImageUrl (Val "https://example.com/a.png")
  = wrap Sample.config Sample.generateImageUrl
      (Val "https://example.com/a.png")
  /\ "https://example.com/a.png" = "https://example.com/a.png".
Proof.
  split; [reflexivity|].
  apply (wrap_injective Sample.config Sample.generateImageUrl
           "https://example.com/a.png" "https://example.com/a.png");
    reflexivity.
Defined.
